(** * Streaming event aggregation of the agent chat client (src/main.py)

    A shallow embedding of [process_sse_events], [make_api_request],
    [send_message], [load_session] and of the places of the page script that
    read the loaded session, followed by the properties of the specification
    that concern them.

    The program works on untyped Python values obtained from [json.loads]
    and [response.json()], so the embedding does too: a value is a [Py.value],
    a dictionary keeps its insertion order, and every attribute access,
    subscript, iteration and [+=] of the source is written with the Python
    exception it raises on a value of the wrong kind. *)

From Stdlib Require Import String Ascii List ZArith Bool Lia.
From Stdlib Require Import Floats.SpecFloat.
Import ListNotations.
Local Open Scope string_scope.
Local Open Scope list_scope.

(** ** Python values and the built-in operations the program uses *)

Module Py.

(** Exceptions, all of them subclasses of [Exception]. *)
Inductive exn : Type :=
| AttributeError
| TypeError
| KeyError (key : string)
| OverflowError
| ValueError
| RecursionError
| UnicodeDecodeError
| RequestException (detail : string).

(** Outcome of an expression or statement that may raise. *)
Inductive result (A : Type) : Type :=
| Ok (a : A)
| Raise (e : exn).
Arguments Ok {A} a.
Arguments Raise {A} e.

Definition bind {A B : Type} (c : result A) (k : A -> result B) : result B :=
  match c with
  | Ok a => k a
  | Raise e => Raise e
  end.

Set Warnings "-register-all".

(** A [str] is held as the bytes of its UTF-8 encoding, so that [++] is
    string concatenation and [=] is string equality. *)
Inductive value : Type :=
| PNone
| PBool (b : bool)
| PInt (n : Z)
| PFloat (f : spec_float)
| PStr (s : string)
| PList (items : list value)
| PDict (entries : list (string * value)).

(** [bool(v)]. *)
Definition float_is_zero (f : spec_float) : bool :=
  match f with
  | S754_zero _ => true
  | _ => false
  end.

Definition truthy (v : value) : bool :=
  match v with
  | PNone => false
  | PBool b => b
  | PInt n => negb (Z.eqb n 0)
  | PFloat f => negb (float_is_zero f)
  | PStr s => negb (String.eqb s "")
  | PList items => match items with [] => false | _ :: _ => true end
  | PDict entries => match entries with [] => false | _ :: _ => true end
  end.

(** Dictionaries: insertion-ordered, one entry per key. *)
Fixpoint lookup (k : string) (entries : list (string * value)) : option value :=
  match entries with
  | [] => None
  | (k', v) :: rest => if String.eqb k k' then Some v else lookup k rest
  end.

(** [d[k] = v] on the entries of [d]. *)
Fixpoint store (k : string) (v : value) (entries : list (string * value))
  : list (string * value) :=
  match entries with
  | [] => [(k, v)]
  | (k', v') :: rest =>
      if String.eqb k k' then (k, v) :: rest else (k', v') :: store k v rest
  end.

(** [o.get(k, default)]: only a dict has the method. *)
Definition get (o : value) (k : string) (default : value) : result value :=
  match o with
  | PDict entries =>
      match lookup k entries with
      | Some v => Ok v
      | None => Ok default
      end
  | _ => Raise AttributeError
  end.

(** [o[k]] with a string key. *)
Definition subscript (o : value) (k : string) : result value :=
  match o with
  | PDict entries =>
      match lookup k entries with
      | Some v => Ok v
      | None => Raise (KeyError k)
      end
  | _ => Raise TypeError
  end.

(** [o[k] = v] on a dict. *)
Definition assign (o : value) (k : string) (v : value) : result value :=
  match o with
  | PDict entries => Ok (PDict (store k v entries))
  | _ => Raise TypeError
  end.

(** [v == s] for a string literal [s]. *)
Definition eq_str (v : value) (s : string) : bool :=
  match v with
  | PStr t => String.eqb t s
  | _ => false
  end.

(** The characters of a [str]: a byte [10xxxxxx] continues the character
    started before it. *)
Definition is_continuation (c : ascii) : bool :=
  let n := N_of_ascii c in (128 <=? n)%N && (n <? 192)%N.

Fixpoint utf8_split (s : string) : string * list string :=
  match s with
  | EmptyString => (EmptyString, [])
  | String c rest =>
      let (k, cs) := utf8_split rest in
      if is_continuation c then (String c k, cs)
      else (EmptyString, String c k :: cs)
  end.

Definition chars (s : string) : list string := snd (utf8_split s).

(** The items a [for] loop (or [list.extend]) draws from a value. *)
Definition iterate (v : value) : result (list value) :=
  match v with
  | PList items => Ok items
  | PStr s => Ok (map PStr (chars s))
  | PDict entries => Ok (map (fun kv => PStr (fst kv)) entries)
  | _ => Raise TypeError
  end.

(** Numbers: [bool] is a subclass of [int]; a [float] is an IEEE 754
    binary64. *)
Definition prec : Z := 53.
Definition emax : Z := 1024.

Definition float_of_int (n : Z) : result spec_float :=
  match binary_normalize prec emax n 0 false with
  | S754_infinity _ => Raise OverflowError
  | f => Ok f
  end.

Inductive number : Type :=
| NInt (n : Z)
| NFloat (f : spec_float).

Definition as_number (v : value) : option number :=
  match v with
  | PBool b => Some (NInt (if b then 1 else 0))
  | PInt n => Some (NInt n)
  | PFloat f => Some (NFloat f)
  | _ => None
  end.

Definition add_numbers (x y : number) : result value :=
  match x, y with
  | NInt a, NInt b => Ok (PInt (a + b))
  | NInt a, NFloat g =>
      bind (float_of_int a) (fun f => Ok (PFloat (SFadd prec emax f g)))
  | NFloat f, NInt b =>
      bind (float_of_int b) (fun g => Ok (PFloat (SFadd prec emax f g)))
  | NFloat f, NFloat g => Ok (PFloat (SFadd prec emax f g))
  end.

(** [x += y], the value bound to the target afterwards. *)
Definition iadd (x y : value) : result value :=
  match x with
  | PStr s =>
      match y with
      | PStr t => Ok (PStr (s ++ t))
      | _ => Raise TypeError
      end
  | PList items =>
      bind (iterate y) (fun more => Ok (PList (items ++ more)))
  | PDict _ | PNone => Raise TypeError
  | _ =>
      match as_number x, as_number y with
      | Some a, Some b => add_numbers a b
      | _, _ => Raise TypeError
      end
  end.

End Py.

Import Py.

Declare Scope py_scope.
Delimit Scope py_scope with py.
Notation "x <- c ;; k" := (Py.bind c (fun x => k))
  (at level 61, c at next level, right associativity) : py_scope.
Local Open Scope py_scope.

(** ** The SSE stream and its classifier: [process_sse_events] *)

(** What [json.loads] does with a payload: a value, the [JSONDecodeError]
    that the loop absorbs, or another exception. *)
Inductive loads_result : Type :=
| Parsed (event_data : value)
| JSONDecodeError
| LoadsRaise (e : exn).

(** A streaming response: the lines [iter_lines] yields and, when the
    transport breaks after them, the exception the iterator raises. *)
Record response : Type := mk_response {
  iter_lines : list string;
  broken : option exn
}.

(** A call of [st.error]. *)
Inductive notification : Type :=
| ApiError (e : exn)
| SseError (e : exn).

(** The two local variables of [process_sse_events]. *)
Record state : Type := mk_state {
  formatted_events : list value;
  current_event : value
}.

Definition initial : state := mk_state [] PNone.

Definition function_call_event (content name args : value) : value :=
  PDict [("type", PStr "function_call"); ("content", content);
         ("role", PStr "assistant"); ("name", name); ("args", args)].

Definition video_list_event (videos : value) : value :=
  PDict [("type", PStr "video_list"); ("content", videos);
         ("role", PStr "assistant")].

Definition text_event (content : value) : value :=
  PDict [("type", PStr "text"); ("content", content);
         ("role", PStr "assistant")].

(** Body of [for part in event_data['content']['parts']] (lines 61-86):
    the value of [current_event] after the part. *)
Definition process_part (current : value) (part : value) : result value :=
  fc <- get part "functionCall" PNone ;;
  if truthy fc then
    content <- subscript part "functionCall" ;;
    name <- get content "name" PNone ;;
    args <- get content "args" PNone ;;
    Ok (function_call_event content name args)
  else
    fr <- get part "functionResponse" PNone ;;
    if truthy fr then
      response_data <- subscript part "functionResponse" ;;
      name <- get response_data "name" PNone ;;
      if eq_str name "search_youtube_videos" then
        resp <- get response_data "response" (PDict []) ;;
        videos <- get resp "videos" (PList []) ;;
        Ok (video_list_event videos)
      else Ok current
    else
      t <- get part "text" PNone ;;
      if truthy t then
        is_text <-
          (if truthy current then
             ty <- get current "type" PNone ;; Ok (eq_str ty "text")
           else Ok false) ;;
        if (is_text : bool) then
          old <- subscript current "content" ;;
          txt <- subscript part "text" ;;
          new <- iadd old txt ;;
          assign current "content" new
        else
          txt <- subscript part "text" ;;
          Ok (text_event txt)
      else Ok current.

Fixpoint process_parts (current : value) (parts : list value) : result value :=
  match parts with
  | [] => Ok current
  | part :: rest =>
      current' <- process_part current part ;;
      process_parts current' rest
  end.

(** Lines 59-90: one parsed frame. *)
Definition process_event_data (st : state) (event_data : value) : result state :=
  content <- get event_data "content" (PDict []) ;;
  parts <- get content "parts" PNone ;;
  if truthy parts then
    content <- subscript event_data "content" ;;
    parts <- subscript content "parts" ;;
    items <- iterate parts ;;
    current <- process_parts (current_event st) items ;;
    partial <- get event_data "partial" PNone ;;
    if negb (truthy partial) && truthy current then
      Ok (mk_state (formatted_events st ++ [current]) PNone)
    else Ok (mk_state (formatted_events st) current)
  else Ok st.

Definition data_prefix : string := "data: ".

Section Stream.

(** [bytes.decode('utf-8')] and [json.loads], the two library calls of the
    loop. *)
Variable decode_utf8 : string -> option string.
Variable json_loads : string -> loads_result.

(** Lines 54-93: the body of the loop for one line. *)
Definition process_line (st : state) (line : string) : result state :=
  if String.eqb line "" then Ok st
  else
    match decode_utf8 line with
    | None => Raise UnicodeDecodeError
    | Some text =>
        if String.prefix data_prefix text then
          match json_loads (String.substring 6 (String.length text - 6) text) with
          | Parsed event_data => process_event_data st event_data
          | JSONDecodeError => Ok st
          | LoadsRaise e => Raise e
          end
        else Ok st
    end.

(** The loop: the state when it is left and the exception that left it.
    The list is appended to by the last statement of a frame only, so it is
    the list before the frame where a frame raises. *)
Fixpoint consume (st : state) (lines : list string) : state * option exn :=
  match lines with
  | [] => (st, None)
  | line :: rest =>
      match process_line st line with
      | Ok st' => consume st' rest
      | Raise e => (st, Some e)
      end
  end.

(** Lines 47-97: the list returned and the notifications shown. *)
Definition process_sse_events (r : response) : list value * list notification :=
  let (st, raised) := consume initial (iter_lines r) in
  match raised with
  | Some e => (formatted_events st, [SseError e])
  | None =>
      match broken r with
      | Some e => (formatted_events st, [SseError e])
      | None => (formatted_events st, [])
      end
  end.

(** What one line contributes to the loop: nothing (an empty line, a line
    without the prefix, a payload that is not JSON), a frame, or the
    exception that ends the loop. *)
Inductive reading : Type :=
| Ignored
| Frame (event_data : value)
| Fatal (e : exn).

Definition read_line (line : string) : reading :=
  if String.eqb line "" then Ignored
  else
    match decode_utf8 line with
    | None => Fatal UnicodeDecodeError
    | Some text =>
        if String.prefix data_prefix text then
          match json_loads (String.substring 6 (String.length text - 6) text) with
          | Parsed event_data => Frame event_data
          | JSONDecodeError => Ignored
          | LoadsRaise e => Fatal e
          end
        else Ignored
    end.

(** The frames of a stream none of whose lines is fatal. *)
Fixpoint stream_frames (lines : list string) : option (list value) :=
  match lines with
  | [] => Some []
  | line :: rest =>
      match read_line line, stream_frames rest with
      | Ignored, Some frames => Some frames
      | Frame event_data, Some frames => Some (event_data :: frames)
      | _, _ => None
      end
  end.

(** A line whose payload [json.loads] rejects. *)
Definition malformed (line : string) : Prop :=
  line <> "" /\
  exists text,
    decode_utf8 line = Some text /\
    String.prefix data_prefix text = true /\
    json_loads (String.substring 6 (String.length text - 6) text) = JSONDecodeError.

End Stream.

(** ** The request behind a stream: [make_api_request] and [send_message] *)

(** What [requests.post] does: it raises, or it returns a response with a
    status code. *)
Inductive http_outcome : Type :=
| PostRaises (e : exn)
| Responded (status_code : Z) (r : response).

(** The exceptions of class [requests.exceptions.RequestException], the
    only ones the [except] clause of line 43 names. *)
Definition is_request_exception (e : exn) : bool :=
  match e with
  | RequestException _ => true
  | _ => false
  end.

(** [response.raise_for_status()]. *)
Definition raise_for_status (status_code : Z) : result unit :=
  if (400 <=? status_code)%Z && (status_code <? 600)%Z
  then Raise (RequestException "HTTPError")
  else Ok tt.

Section Requests.

Variable decode_utf8 : string -> option string.
Variable json_loads : string -> loads_result.

(** The configured base URL and the transport: [requests.post(url,
    json=data, headers=headers, stream=True)]. *)
Variable API_BASE_URL : string.
Variable post : string -> value -> http_outcome.

(** Lines 43-45: a [RequestException] is shown and turned into [None];
    any other exception leaves the function. *)
Definition except_request_exception (e : exn)
  : result (option response * list notification) :=
  if is_request_exception e then Ok (None, [ApiError e]) else Raise e.

(** Lines 25-45 for [method = "POST"] and [stream = True]: the value
    returned ([None] is [None]) and the notifications shown. *)
Definition make_api_request_stream (endpoint : string) (data : value)
  : result (option response * list notification) :=
  let url := (API_BASE_URL ++ "/run_sse")%string in
  match post url data with
  | PostRaises e => except_request_exception e
  | Responded status_code r =>
      match raise_for_status status_code with
      | Raise e => except_request_exception e
      | Ok _ => Ok (Some r, [])
      end
  end.

Definition message_data (app_name user_id session_id message : value) : value :=
  PDict [("app_name", app_name); ("user_id", user_id);
         ("session_id", session_id);
         ("new_message",
          PDict [("parts", PList [PDict [("text", message)]]);
                 ("role", PStr "user")]);
         ("streaming", PBool true)].

(** Lines 130-146. *)
Definition send_message (app_name user_id session_id message : value)
  : result (list value * list notification) :=
  let data := message_data app_name user_id session_id message in
  reply <- make_api_request_stream "/run" data ;;
  match reply with
  | (Some r, shown) =>
      let (events, shown') := process_sse_events decode_utf8 json_loads r in
      Ok (events, shown ++ shown')
  | (None, shown) => Ok ([], shown)
  end.

(** Line 338: the arguments are read from the session, then the message is
    sent. *)
Definition send_from_session (session prompt : value)
  : result (list value * list notification) :=
  app_name <- subscript session "appName" ;;
  user_id <- subscript session "userId" ;;
  session_id <- subscript session "id" ;;
  send_message app_name user_id session_id prompt.

End Requests.

(** Lines 342-349: the message appended for a streamed event; [now] is
    [datetime.now().timestamp()]. *)
Definition has_key (k : string) (o : value) : bool :=
  match o with
  | PDict entries =>
      match lookup k entries with Some _ => true | None => false end
  | _ => false
  end.

Definition is_dict (o : value) : bool :=
  match o with
  | PDict _ => true
  | _ => false
  end.

Definition streamed_message (now : value) (event : value) : result (option value) :=
  if is_dict event && has_key "type" event then
    role <- get event "author" (PStr "assistant") ;;
    content <- get event "content" PNone ;;
    text <- get event "text" (PStr "") ;;
    type <- get event "type" PNone ;;
    timestamp <- get event "timestamp" now ;;
    Ok (Some (PDict [("role", role); ("content", content); ("text", text);
                     ("type", type); ("timestamp", timestamp)]))
  else Ok None.

(** ** Stored sessions: [load_session] and the session info display *)

(** Lines 162-177: the messages one part of a stored event appends. *)
Definition history_part (event part : value) : result (list value) :=
  fr <- get part "function_response" PNone ;;
  if truthy fr then
    fr <- subscript part "function_response" ;;
    resp <- get fr "response" (PDict []) ;;
    videos <- get resp "videos" PNone ;;
    if truthy videos then
      content <- subscript resp "videos" ;;
      role <- get event "author" (PStr "assistant") ;;
      timestamp <- get event "timestamp" (PInt 0) ;;
      Ok [PDict [("type", PStr "video_list"); ("content", content);
                 ("role", role); ("timestamp", timestamp)]]
    else Ok []
  else
    t <- get part "text" PNone ;;
    if truthy t then
      content <- subscript part "text" ;;
      role <- get event "author" (PStr "unknown") ;;
      timestamp <- get event "timestamp" (PInt 0) ;;
      Ok [PDict [("type", PStr "text"); ("content", content);
                 ("role", role); ("timestamp", timestamp)]]
    else Ok [].

Fixpoint history_parts (event : value) (parts : list value) : result (list value) :=
  match parts with
  | [] => Ok []
  | part :: rest =>
      ms <- history_part event part ;;
      ms' <- history_parts event rest ;;
      Ok (ms ++ ms')
  end.

(** Lines 160-177: the messages one stored event appends. *)
Definition history_event (event : value) : result (list value) :=
  content <- get event "content" PNone ;;
  if truthy content then
    content <- get event "content" (PDict []) ;;
    parts <- get content "parts" PNone ;;
    if truthy parts then
      content <- subscript event "content" ;;
      parts <- subscript content "parts" ;;
      items <- iterate parts ;;
      history_parts event items
    else Ok []
  else Ok [].

Fixpoint history_events (events : list value) : result (list value) :=
  match events with
  | [] => Ok []
  | event :: rest =>
      ms <- history_event event ;;
      ms' <- history_events rest ;;
      Ok (ms ++ ms')
  end.

(** Lines 158-178: the list assigned to [st.session_state.messages]. *)
Definition session_messages (session : value) : result (list value) :=
  events <- get session "events" (PList []) ;;
  items <- iterate events ;;
  history_events items.

(** The page state the functions write. *)
Record page : Type := mk_page {
  the_session : value;
  messages : list value
}.

(** Lines 153-179 after the request: [reply] is what [make_api_request]
    returned. An exception leaves the page with the new session and the old
    messages. *)
Definition load_session (reply : value) (pg : page) : page * option exn :=
  if truthy reply then
    match session_messages reply with
    | Ok ms => (mk_page reply ms, None)
    | Raise e => (mk_page reply (messages pg), Some e)
    end
  else (pg, None).

(** Lines 275-283: the values the session header shows; the last one is the
    argument of [datetime.fromtimestamp]. *)
Record session_info : Type := mk_session_info {
  shown_id : value;
  shown_app : value;
  shown_user : value;
  shown_last_update : value
}.

Definition display_session_info (session : value) : result session_info :=
  id <- subscript session "id" ;;
  app <- get session "app_name" PNone ;;
  user <- get session "user_id" PNone ;;
  last_update <- get session "last_update_time" (PInt 0) ;;
  Ok (mk_session_info id app user last_update).

(** ** Reference decoders

    [bytes.decode('utf-8')] and [json.loads] belong to the Python library;
    the theorems below hold for every pair of functions in their place.
    The two definitions of this module follow the library's documented
    behaviour (strict UTF-8; the grammar, the escapes and the constants
    [NaN], [Infinity] and [-Infinity] of the [json] scanner; correctly
    rounded floats; the 4300-digit limit on integers) and give the concrete
    streams of the examples their meaning. *)

Module Ref.

Local Open Scope N_scope.

Definition code (c : ascii) : N := N_of_ascii c.

Definition between (lo b hi : N) : bool := (lo <=? b) && (b <=? hi).

Definition cont (b : N) : bool := between 128 b 191.

Definition second_of_three (b0 b1 : N) : bool :=
  if b0 =? 224 then between 160 b1 191
  else if b0 =? 237 then between 128 b1 159
  else cont b1.

Definition second_of_four (b0 b1 : N) : bool :=
  if b0 =? 240 then between 144 b1 191
  else if b0 =? 244 then between 128 b1 143
  else cont b1.

Fixpoint well_formed (bs : list N) : bool :=
  match bs with
  | [] => true
  | b0 :: r0 =>
      if b0 <? 128 then well_formed r0
      else
        match r0 with
        | [] => false
        | b1 :: r1 =>
            if between 194 b0 223 then cont b1 && well_formed r1
            else
              match r1 with
              | [] => false
              | b2 :: r2 =>
                  if between 224 b0 239
                  then second_of_three b0 b1 && cont b2 && well_formed r2
                  else
                    match r2 with
                    | [] => false
                    | b3 :: r3 =>
                        between 240 b0 244 && second_of_four b0 b1
                        && cont b2 && cont b3 && well_formed r3
                    end
              end
        end
  end.

(** [line.decode('utf-8')]: the text, held as the same bytes. *)
Definition decode_utf8 (line : string) : option string :=
  if well_formed (map code (list_ascii_of_string line)) then Some line else None.

(** The encoding of a code point; a lone surrogate gets its three bytes. *)
Definition utf8_encode (cp : N) : string :=
  let byte n := String (ascii_of_N n) EmptyString in
  let tail n := byte (128 + n mod 64) in
  if cp <? 128 then byte cp
  else if cp <? 2048 then (byte (192 + cp / 64) ++ tail cp)%string
  else if cp <? 65536 then
    (byte (224 + cp / 4096) ++ tail (cp / 64) ++ tail cp)%string
  else
    (byte (240 + cp / 262144) ++ tail (cp / 4096) ++ tail (cp / 64)
       ++ tail cp)%string.

Definition dquote : ascii := ascii_of_N 34.
Definition backslash : ascii := ascii_of_N 92.

Definition is_ws (c : ascii) : bool :=
  let n := code c in (n =? 32) || (n =? 9) || (n =? 10) || (n =? 13).

Fixpoint skip_ws (s : string) : string :=
  match s with
  | EmptyString => EmptyString
  | String c r => if is_ws c then skip_ws r else s
  end.

Definition is_digit (c : ascii) : bool := between 48 (code c) 57.

Definition hex_digit (c : ascii) : option N :=
  let n := code c in
  if between 48 n 57 then Some (n - 48)
  else if between 65 n 70 then Some (n - 55)
  else if between 97 n 102 then Some (n - 87)
  else None.

Definition hex4 (a b c d : ascii) : option N :=
  match hex_digit a, hex_digit b, hex_digit c, hex_digit d with
  | Some x, Some y, Some z, Some w => Some (((x * 16 + y) * 16 + z) * 16 + w)
  | _, _, _, _ => None
  end.

Definition simple_escape (c : ascii) : option N :=
  let n := code c in
  if (n =? 34) || (n =? 92) || (n =? 47) then Some n
  else if n =? 98 then Some 8
  else if n =? 102 then Some 12
  else if n =? 110 then Some 10
  else if n =? 114 then Some 13
  else if n =? 116 then Some 9
  else None.

Definition prepend (p : string) (r : option (string * string))
  : option (string * string) :=
  match r with
  | Some (t, rest) => Some ((p ++ t)%string, rest)
  | None => None
  end.

(** The string literal whose opening quote was just read: its text and what
    follows its closing quote. *)
Fixpoint scan_string (s : string) : option (string * string) :=
  match s with
  | EmptyString => None
  | String c r =>
      if Ascii.eqb c dquote then Some (EmptyString, r)
      else if Ascii.eqb c backslash then
        match r with
        | EmptyString => None
        | String e r1 =>
            if Ascii.eqb e "u" then
              match r1 with
              | String h1 (String h2 (String h3 (String h4 r2))) =>
                  match hex4 h1 h2 h3 h4 with
                  | None => None
                  | Some hi =>
                      match r2 with
                      | String b (String u (String l1 (String l2
                          (String l3 (String l4 r3))))) =>
                          match hex4 l1 l2 l3 l4 with
                          | Some lo =>
                              if between 55296 hi 56319
                                 && Ascii.eqb b backslash && Ascii.eqb u "u"
                                 && between 56320 lo 57343
                              then prepend
                                     (utf8_encode
                                        (65536 + (hi - 55296) * 1024
                                         + (lo - 56320)))
                                     (scan_string r3)
                              else prepend (utf8_encode hi) (scan_string r2)
                          | None => prepend (utf8_encode hi) (scan_string r2)
                          end
                      | _ => prepend (utf8_encode hi) (scan_string r2)
                      end
                  end
              | _ => None
              end
            else
              match simple_escape e with
              | Some n => prepend (utf8_encode n) (scan_string r1)
              | None => None
              end
        end
      else if code c <? 32 then None
      else prepend (String c EmptyString) (scan_string r)
  end.

Fixpoint digits (s : string) : string * string :=
  match s with
  | EmptyString => (EmptyString, EmptyString)
  | String c r =>
      if is_digit c then let (d, rest) := digits r in (String c d, rest)
      else (EmptyString, s)
  end.

Fixpoint number_of_digits (acc : Z) (d : string) : Z :=
  match d with
  | EmptyString => acc
  | String c r => number_of_digits (acc * 10 + Z.of_N (code c - 48))%Z r
  end.

(** [float(literal)] for the literal [(-1)^neg * mant * 10^e10]. *)
Definition float_of_decimal (neg : bool) (mant : Z) (e10 : Z) : spec_float :=
  match mant with
  | Zpos m =>
      if (0 <=? e10)%Z
      then binary_normalize prec emax
             (if neg then Z.opp (mant * 10 ^ e10) else mant * 10 ^ e10)%Z 0 false
      else
        match (10 ^ (- e10))%Z with
        | Zpos d =>
            SFdiv prec emax (S754_finite neg m 0) (S754_finite false d 0)
        | _ => S754_nan
        end
  | _ => S754_zero neg
  end.

(** Outcome of a scanner: a value and the rest of the text, a syntax error
    ([JSONDecodeError]) or another exception. *)
Inductive scan (A : Type) : Type :=
| Done (a : A) (rest : string)
| Syntax
| Fault (e : exn).
Arguments Done {A} a rest.
Arguments Syntax {A}.
Arguments Fault {A} e.

Definition max_str_digits : nat := 4300.

Definition scan_number (s : string) : scan value :=
  let (neg, s1) :=
    match s with
    | String c r => if Ascii.eqb c "-" then (true, r) else (false, s)
    | EmptyString => (false, s)
    end in
  match s1 with
  | EmptyString => Syntax
  | String c r =>
      if negb (is_digit c) then Syntax
      else
        let (int, r1) :=
          if Ascii.eqb c "0" then (String c EmptyString, r) else digits s1 in
        let (frac, r2) :=
          match r1 with
          | String p r' =>
              if Ascii.eqb p "." then
                match digits r' with
                | (EmptyString, _) => (EmptyString, r1)
                | (f, rest) => (f, rest)
                end
              else (EmptyString, r1)
          | EmptyString => (EmptyString, r1)
          end in
        let '(has_exp, exp, r3) :=
          match r2 with
          | String e r' =>
              if Ascii.eqb e "e" || Ascii.eqb e "E" then
                let (eneg, r'') :=
                  match r' with
                  | String sg x =>
                      if Ascii.eqb sg "-" then (true, x)
                      else if Ascii.eqb sg "+" then (false, x)
                      else (false, r')
                  | EmptyString => (false, r')
                  end in
                match digits r'' with
                | (EmptyString, _) => (false, 0%Z, r2)
                | (d, rest) =>
                    let n := number_of_digits 0 d in
                    (true, if eneg then Z.opp n else n, rest)
                end
              else (false, 0%Z, r2)
          | EmptyString => (false, 0%Z, r2)
          end in
        match frac, has_exp with
        | EmptyString, false =>
            if Nat.ltb max_str_digits (String.length int)
            then Fault ValueError
            else
              let n := number_of_digits 0 int in
              Done (PInt (if neg then Z.opp n else n)) r3
        | _, _ =>
            let mant := number_of_digits 0 (int ++ frac)%string in
            let e10 := (exp - Z.of_nat (String.length frac))%Z in
            Done (PFloat (float_of_decimal neg mant e10)) r3
        end
  end.

(** [s] without the literal [lit] it starts with. *)
Fixpoint strip (lit s : string) : option string :=
  match lit with
  | EmptyString => Some s
  | String a lit' =>
      match s with
      | String b s' => if Ascii.eqb a b then strip lit' s' else None
      | EmptyString => None
      end
  end.

Definition scan_constant (s : string) : option (value * string) :=
  match strip "null" s with Some r => Some (PNone, r) | None =>
  match strip "true" s with Some r => Some (PBool true, r) | None =>
  match strip "false" s with Some r => Some (PBool false, r) | None =>
  match strip "NaN" s with Some r => Some (PFloat S754_nan, r) | None =>
  match strip "Infinity" s with
  | Some r => Some (PFloat (S754_infinity false), r)
  | None =>
  match strip "-Infinity" s with
  | Some r => Some (PFloat (S754_infinity true), r)
  | None => None
  end end end end end end.

(** The scanner. Each call uses one unit of [fuel]; of two calls in a row
    one at least follows a character that was just read, and [json_loads]
    supplies two units for each character of the text. *)
Fixpoint scan_value (fuel : nat) (s : string) : scan value :=
  match fuel with
  | O => Syntax
  | S n =>
      match s with
      | EmptyString => Syntax
      | String c r =>
          if Ascii.eqb c dquote then
            match scan_string r with
            | Some (t, rest) => Done (PStr t) rest
            | None => Syntax
            end
          else if Ascii.eqb c "{" then
            match skip_ws r with
            | String c' rest =>
                if Ascii.eqb c' "}" then Done (PDict []) rest
                else scan_members n (skip_ws r) []
            | EmptyString => Syntax
            end
          else if Ascii.eqb c "[" then
            match skip_ws r with
            | String c' rest =>
                if Ascii.eqb c' "]" then Done (PList []) rest
                else scan_elements n (skip_ws r) []
            | EmptyString => Syntax
            end
          else
            match scan_constant s with
            | Some (v, rest) => Done v rest
            | None => scan_number s
            end
      end
  end

with scan_elements (fuel : nat) (s : string) (seen : list value) : scan value :=
  match fuel with
  | O => Syntax
  | S n =>
      match scan_value n s with
      | Done v rest =>
          match skip_ws rest with
          | String c r =>
              if Ascii.eqb c "]" then Done (PList (rev (v :: seen))) r
              else if Ascii.eqb c "," then scan_elements n (skip_ws r) (v :: seen)
              else Syntax
          | EmptyString => Syntax
          end
      | Syntax => Syntax
      | Fault e => Fault e
      end
  end

with scan_members (fuel : nat) (s : string) (seen : list (string * value))
  : scan value :=
  match fuel with
  | O => Syntax
  | S n =>
      match s with
      | String q r =>
          if Ascii.eqb q dquote then
            match scan_string r with
            | Some (k, rest) =>
                match skip_ws rest with
                | String colon r1 =>
                    if Ascii.eqb colon ":" then
                      match scan_value n (skip_ws r1) with
                      | Done v rest1 =>
                          match skip_ws rest1 with
                          | String c r2 =>
                              if Ascii.eqb c "}"
                              then Done (PDict (store k v seen)) r2
                              else if Ascii.eqb c ","
                              then scan_members n (skip_ws r2) (store k v seen)
                              else Syntax
                          | EmptyString => Syntax
                          end
                      | Syntax => Syntax
                      | Fault e => Fault e
                      end
                    else Syntax
                | EmptyString => Syntax
                end
            | None => Syntax
            end
          else Syntax
      | EmptyString => Syntax
      end
  end.

Definition byte_order_mark : string :=
  String (ascii_of_N 239) (String (ascii_of_N 187) (String (ascii_of_N 191) EmptyString)).

(** [json.loads(payload)]. *)
Definition json_loads (payload : string) : loads_result :=
  if String.prefix byte_order_mark payload then JSONDecodeError
  else
    match scan_value (2 * String.length payload + 2) (skip_ws payload) with
    | Done v rest =>
        match skip_ws rest with
        | EmptyString => Parsed v
        | String _ _ => JSONDecodeError
        end
    | Syntax => JSONDecodeError
    | Fault e => LoadsRaise e
    end.

(** Lines of the examples are written with ['] where the wire has the
    double quote. *)
Definition wire (s : string) : string :=
  string_of_list_ascii
    (map (fun c => if Ascii.eqb c "'" then dquote else c) (list_ascii_of_string s)).

End Ref.

(** ** The wire schema

    The frames and parts the specification speaks of, as conditions on the
    parsed values: [{content?: {parts: [Part...]}, partial?: bool, ...}],
    a part being a [functionCall], a [functionResponse] or a [text]. *)

Definition field (o : value) (k : string) : option value :=
  match o with
  | PDict entries => lookup k entries
  | _ => None
  end.

Definition parts_of (event_data : value) : option (list value) :=
  match field event_data "content" with
  | Some content =>
      match field content "parts" with
      | Some (PList parts) => Some parts
      | _ => None
      end
  | None => None
  end.

(** The [partial] flag of a frame: absent counts as false. *)
Definition partial_flag (event_data : value) : bool :=
  match field event_data "partial" with
  | Some v => truthy v
  | None => false
  end.

Definition text_part (part : value) (t : string) : Prop :=
  field part "functionCall" = None /\
  field part "functionResponse" = None /\
  field part "text" = Some (PStr t).

(** A [functionCall{name, args}] part: its payload is a dict with an
    entry or more. *)
Definition function_call_part (part : value) (call : value) : Prop :=
  field part "functionCall" = Some call /\
  is_dict call = true /\ truthy call = true.

(** A [functionResponse{name, response}] part of the video search whose
    [response], when present, is the dict [resp]. *)
Definition video_search_part (part : value)
  (resp : option (list (string * value))) : Prop :=
  field part "functionCall" = None /\
  exists fr,
    field part "functionResponse" = Some fr /\
    field fr "name" = Some (PStr "search_youtube_videos") /\
    field fr "response" = option_map PDict resp.

(** [response.videos], the empty list standing for a missing field. *)
Definition videos_of (resp : option (list (string * value))) : value :=
  match resp with
  | Some entries =>
      match lookup "videos" entries with
      | Some videos => videos
      | None => PList []
      end
  | None => PList []
  end.

(** A frame whose parts are the single text part [t]. *)
Definition text_frame (event_data : value) (t : string) : Prop :=
  exists part, parts_of event_data = Some [part] /\ text_part part t.

Definition concat_texts (ts : list string) : string :=
  fold_right String.append EmptyString ts.

(** The builder that holds the text accumulated so far. *)
Definition text_builder (acc : string) : value :=
  if String.eqb acc "" then PNone else text_event (PStr acc).

(** The classifier over the frames of a stream. *)
Fixpoint run_frames (st : state) (frames : list value) : state * option exn :=
  match frames with
  | [] => (st, None)
  | event_data :: rest =>
      match process_event_data st event_data with
      | Ok st' => run_frames st' rest
      | Raise e => (st, Some e)
      end
  end.

(** The three shapes [process_sse_events] gives an event. *)
Inductive streamed_event : value -> Prop :=
| streamed_function_call content name args :
    streamed_event (function_call_event content name args)
| streamed_video_list videos : streamed_event (video_list_event videos)
| streamed_text content : streamed_event (text_event content).

(** A builder whose [type] is ["text"]. *)
Definition kind_is_text (current : value) : bool :=
  match field current "type" with
  | Some ty => eq_str ty "text"
  | None => false
  end.

(** The value of a field when present, [d] otherwise. *)
Definition field_or (d : value) (o : value) (k : string) : value :=
  match field o k with
  | Some v => v
  | None => d
  end.

(** A session in which the entry [old] is spelled [new]. *)
Fixpoint respell (old new : string) (entries : list (string * value))
  : list (string * value) :=
  match entries with
  | [] => []
  | (k, v) :: rest =>
      (if String.eqb k old then new else k, v) :: respell old new rest
  end.

(** A line on whose payload [json.loads] raises [e], an exception other
    than [JSONDecodeError]. *)
Definition unparsed (decode_utf8 : string -> option string)
  (json_loads : string -> loads_result) (line : string) (e : exn) : Prop :=
  line <> "" /\
  exists text,
    decode_utf8 line = Some text /\
    String.prefix data_prefix text = true /\
    json_loads (String.substring 6 (String.length text - 6) text) = LoadsRaise e.

(** A frame whose [content.parts] is absent or empty. *)
Definition no_parts (event_data : value) : Prop :=
  is_dict event_data = true /\
  (field event_data "content" = None \/
   exists entries,
     field event_data "content" = Some (PDict entries) /\
     (lookup "parts" entries = None \/
      lookup "parts" entries = Some (PList []))).

(** A value in the place of [current_event]: [None] or a dict. *)
Definition builder (current : value) : Prop :=
  current = PNone \/ is_dict current = true.

(** The invariant of the loop: what it has returned and what it is building
    are events of these shapes. *)
Definition streamed_state (st : state) : Prop :=
  Forall streamed_event (formatted_events st) /\
  (current_event st = PNone \/ streamed_event (current_event st)).

(** ** Sample streams and sessions

    The lines are those of the wire, read by the reference decoders. *)

Module Sample.

Definition line_sea : string :=
  Ref.wire "data: {'content':{'parts':[{'text':'Sea'}]},'partial':true}".

Definition line_rch : string :=
  Ref.wire "data: {'content':{'parts':[{'text':'rch results:'}]},'partial':false}".

Definition line_hi : string :=
  Ref.wire "data: {'content':{'parts':[{'text':'hi'}]},'partial':false}".

Definition line_bad : string := "data: {bad".

(** A payload that is one integer of 4301 digits, one more than
    [int] converts. *)
Definition line_huge_number : string :=
  ("data: " ++ string_of_list_ascii (repeat "1"%char 4301))%string.

(** The second line of the specification's two-line stream, brace for
    brace as it is printed there. *)
Definition line_printed : string :=
  Ref.wire "data: {'content':{'parts':[{'text':'hi'}]}},'partial':false}".

Definition line_empty_text : string :=
  Ref.wire "data: {'content':{'parts':[{'text':''}]},'partial':false}".

Definition line_call : string :=
  Ref.wire "data: {'content':{'parts':[{'functionCall':{'name':'search_youtube_videos','args':{'query':'rocq'}}}]},'partial':true}".

Definition line_no_videos : string :=
  Ref.wire "data: {'content':{'parts':[{'functionResponse':{'name':'search_youtube_videos','response':{'videos':[]}}}]},'partial':false}".

Definition line_no_parts : string :=
  Ref.wire "data: {'content':{'parts':[]},'partial':false}".

Definition text_frame_of (t : string) (partial : bool) : value :=
  PDict [("content", PDict [("parts", PList [PDict [("text", PStr t)]])]);
         ("partial", PBool partial)].

Definition call : value :=
  PDict [("name", PStr "search_youtube_videos");
         ("args", PDict [("query", PStr "rocq")])].

Definition call_frame : value :=
  PDict [("content", PDict [("parts", PList [PDict [("functionCall", call)]])]);
         ("partial", PBool true)].

Definition no_videos_frame : value :=
  PDict [("content",
          PDict [("parts",
                  PList [PDict [("functionResponse",
                                 PDict [("name", PStr "search_youtube_videos");
                                        ("response",
                                         PDict [("videos", PList [])])])]])]);
         ("partial", PBool false)].

Definition no_parts_frame : value :=
  PDict [("content", PDict [("parts", PList [])]); ("partial", PBool false)].


Definition accepting (r : response) : string -> value -> http_outcome :=
  fun _ _ => Responded 200 r.


Definition snake_session : list (string * value) :=
  [("id", PStr "s1"); ("app_name", PStr "agent"); ("user_id", PStr "user123")].

Definition camel_session : list (string * value) :=
  respell "user_id" "userId" (respell "app_name" "appName" snake_session).

Definition both_session : list (string * value) :=
  [("id", PStr "s1"); ("app_name", PStr "agent"); ("appName", PStr "agent");
   ("user_id", PStr "user123"); ("userId", PStr "user123")].

Definition video : value :=
  PDict [("videoId", PStr "abc"); ("title", PStr "Rocq")].

(** A frame that carries the search response and then a text. *)
Definition line_videos_then_text : string :=
  Ref.wire "data: {'content':{'parts':[{'functionResponse':{'name':'search_youtube_videos','response':{'videos':[{'videoId':'abc','title':'Rocq'}]}}},{'text':'Found one.'}]},'partial':false}".

Definition found_part : value :=
  PDict [("functionResponse",
          PDict [("name", PStr "search_youtube_videos");
                 ("response", PDict [("videos", PList [video])])])].

Definition videos_then_text_frame : value :=
  PDict [("content",
          PDict [("parts", PList [found_part; PDict [("text", PStr "Found one.")]])]);
         ("partial", PBool false)].

(** A stored session whose events have no [author]. *)
Definition stored_session : value :=
  PDict [("id", PStr "s1");
         ("events",
          PList [PDict [("content",
                         PDict [("parts",
                                 PList [PDict [("function_response",
                                                PDict [("name", PStr "other_tool");
                                                       ("response",
                                                        PDict [("videos", PList [video])])])];
                                        PDict [("text", PStr "done")]])]);
                        ("timestamp", PInt 12)]])].

(** A stored event of the user, and one without author. *)
Definition asked_event : value :=
  PDict [("content", PDict [("parts", PList [PDict [("text", PStr "find videos")]])]);
         ("author", PStr "user")].

Definition unsigned_event : value :=
  PDict [("content",
          PDict [("parts",
                  PList [PDict [("function_response",
                                 PDict [("name", PStr "other_tool");
                                        ("response",
                                         PDict [("videos", PList [video])])])];
                         PDict [("text", PStr "done")]])]);
         ("timestamp", PInt 12)].

Definition two_event_session : list (string * value) :=
  [("id", PStr "s1"); ("events", PList ([asked_event] ++ unsigned_event :: []))].


End Sample.

(** ** Strings of the page script: [in], [startswith] and [split] *)

Module Str.

(** [s.startswith(p)]. *)
Fixpoint starts_with (p s : string) : bool :=
  match p with
  | EmptyString => true
  | String a p' =>
      match s with
      | EmptyString => false
      | String b s' => Ascii.eqb a b && starts_with p' s'
      end
  end.

(** [needle in hay]. *)
Fixpoint contains (needle hay : string) : bool :=
  starts_with needle hay
  || match hay with
     | EmptyString => false
     | String _ rest => contains needle rest
     end.

(** [c in s] for one character. *)
Fixpoint has_char (c : ascii) (s : string) : bool :=
  match s with
  | EmptyString => false
  | String x rest => Ascii.eqb c x || has_char c rest
  end.

(** [s.split(sep)] for a separator that is not empty: the text is read
    from the left; where [sep] starts, the piece read so far ends and the
    rest of [sep] is skipped. *)
Fixpoint split_from (sep : string) (skip : nat) (piece : string) (s : string)
  : list string :=
  match s with
  | EmptyString => [piece]
  | String c rest =>
      match skip with
      | S k => split_from sep k piece rest
      | O =>
          if starts_with sep s
          then piece :: split_from sep (String.length sep - 1) EmptyString rest
          else split_from sep O (piece ++ String c EmptyString)%string rest
      end
  end.

Definition split (sep s : string) : list string :=
  split_from sep 0 EmptyString s.

(** [l[n]]: an item, or [IndexError]. *)
Inductive indexed (A : Type) : Type :=
| Item (a : A)
| IndexError.
Arguments Item {A} a.
Arguments IndexError {A}.

Definition item {A : Type} (n : nat) (l : list A) : indexed A :=
  match nth_error l n with
  | Some x => Item x
  | None => IndexError
  end.

End Str.

Import Str.

(** ** The helpers of the page: [extract_youtube_id], the session list and
    [format_video_response] *)

(** Lines 181-187. *)
Definition extract_youtube_id (url : string) : indexed (option string) :=
  if contains "youtube.com/watch?v=" url then
    match item 1 (split "watch?v=" url) with
    | Item after =>
        match item 0 (split "&" after) with
        | Item id => Item (Some id)
        | IndexError => IndexError
        end
    | IndexError => IndexError
    end
  else if contains "youtu.be/" url then
    match item 1 (split "youtu.be/" url) with
    | Item after =>
        match item 0 (split "?" after) with
        | Item id => Item (Some id)
        | IndexError => IndexError
        end
    | IndexError => IndexError
    end
  else Item None.

(** Line 256: the entry of the session list for a session whose [id] is
    the string [id]; [date] is what [strftime] printed. *)
Definition session_option (id date : string) : string :=
  (id ++ " (" ++ date ++ ")")%string.

(** Line 260: the session id read back from the selected entry. *)
Definition selected_session_id (selected : string) : indexed string :=
  item 0 (split " " selected).

(** Lines 117-128. *)
Definition format_video_response (video : value) : result value :=
  video_id <- get video "videoId" PNone ;;
  title <- get video "title" PNone ;;
  description <- get video "description" PNone ;;
  thumbnail <- get video "thumbnail" PNone ;;
  channel <- get video "channel" PNone ;;
  url <- get video "url" PNone ;;
  published <- get video "publishedAt" PNone ;;
  Ok (PDict [("type", PStr "video"); ("video_id", video_id); ("title", title);
             ("description", description); ("thumbnail", thumbnail);
             ("channel", channel); ("url", url); ("publishedAt", published)]).

(** ** Requests that do not stream: [make_api_request] and [create_session] *)

(** What [requests.post] or [requests.request] does: it raises, or it
    returns a response with a status code, a body ([response.content]) and
    what [response.json()] would do. *)
Inductive http_reply : Type :=
| RequestRaises (e : exn)
| Replied (status_code : Z) (content : string) (json : result value).

Section PlainRequests.

Variable API_BASE_URL : string.

(** The transport: the method, the URL and, for a POST, the JSON body. *)
Variable request : string -> string -> option value -> http_reply.

(** The [except] clause of line 43: a [RequestException] is shown and
    turned into [None]; any other exception leaves the function. *)
Definition caught (e : exn) : result (value * list notification) :=
  if is_request_exception e then Ok (PNone, [ApiError e]) else Raise e.

(** Lines 25-45 for [stream = False]. *)
Definition make_api_request (endpoint method : string) (data : value)
  : result (value * list notification) :=
  let url := (API_BASE_URL ++ endpoint)%string in
  let reply :=
    if String.eqb method "POST" then request "POST" url (Some data)
    else request method url None in
  match reply with
  | RequestRaises e => caught e
  | Replied status_code content json =>
      match raise_for_status status_code with
      | Raise e => caught e
      | Ok _ =>
          if String.eqb content "" then Ok (PDict [], [])
          else
            match json with
            | Ok v => Ok (v, [])
            | Raise e => caught e
            end
      end
  end.

(** Lines 107-115, for session and user names that are strings: the page,
    the value returned and the notifications. *)
Definition create_session (app_name user_id : string) (initial_state : value)
  (pg : page) : result (page * value * list notification) :=
  let data := if truthy initial_state then initial_state else PDict [] in
  reply <- make_api_request
             ("/apps/" ++ app_name ++ "/users/" ++ user_id ++ "/sessions")%string
             "POST" data ;;
  let (session, shown) := reply in
  if truthy session then Ok (mk_page session [], session, shown)
  else Ok (pg, PNone, shown).

End PlainRequests.

(** ** A chat turn (lines 271-351) *)

Definition user_message (prompt now : value) : value :=
  PDict [("role", PStr "user"); ("content", prompt); ("timestamp", now)].

Section ChatTurn.

Variable decode_utf8 : string -> option string.
Variable json_loads : string -> loads_result.
Variable API_BASE_URL : string.
Variable post : string -> value -> http_outcome.

(** [display_event], which draws the event and may raise while it does. *)
Variable display_event : value -> result unit.

(** What the script runs before it reaches the chat input, apart from
    line 275: the sidebar (lines 230-268) and the drawing of the session
    info and of the messages so far (lines 276-321); it may raise. *)
Variable draw_page : value -> list value -> result unit.

(** [datetime.now().timestamp()] at its successive calls. *)
Variable clock : nat -> value.

(** Lines 341-351: the messages appended for the events, the number of
    clock readings and the exception that ended the loop. *)
Fixpoint append_events (k : nat) (events : list value)
  : list value * option exn :=
  match events with
  | [] => ([], None)
  | event :: rest =>
      match streamed_message (clock k) event with
      | Raise e => ([], Some e)
      | Ok None => append_events k rest
      | Ok (Some m) =>
          match display_event event with
          | Raise e => ([m], Some e)
          | Ok _ =>
              let (ms, raised) := append_events (S k) rest in
              (m :: ms, raised)
          end
      end
  end.

(** Lines 324-351, once the chat input is reached: the message list after
    the prompt, the notifications and the exception that ended the turn. *)
Definition handle_prompt (session prompt : value) (before : list value)
  : list value * list notification * option exn :=
  let with_prompt := before ++ [user_message prompt (clock 0)] in
  match send_from_session decode_utf8 json_loads API_BASE_URL post
          session prompt with
  | Raise e => (with_prompt, [], Some e)
  | Ok (events, shown) =>
      let (ms, raised) := append_events 1 events in
      (with_prompt ++ ms, shown, raised)
  end.

(** Lines 271-351 of the page for a submitted prompt. The chat input
    comes after the header of line 275, which reads [session['id']], and
    after the rest of the page: where one of them raises, the script ends
    before the prompt is looked at. *)
Definition chat_turn (session prompt : value) (before : list value)
  : list value * list notification * option exn :=
  if truthy session then
    match subscript session "id" with
    | Raise e => (before, [], Some e)
    | Ok _ =>
        match draw_page session before with
        | Raise e => (before, [], Some e)
        | Ok _ => handle_prompt session prompt before
        end
    end
  else (before, [], None).

End ChatTurn.

(** ** More sample lines, links and replies *)

Module Cases.

Definition line_number : string := "data: 5".

(** One byte that is not UTF-8. *)
Definition line_undecodable : string := String (ascii_of_N 255) EmptyString.

Definition line_comment : string := ": keep-alive".

Definition weather_part : value :=
  PDict [("functionResponse",
          PDict [("name", PStr "get_weather");
                 ("response", PDict [("videos", PList [PStr "v"])])]);
         ("text", PStr "sunny")].

Definition weather_frame : value :=
  PDict [("content", PDict [("parts", PList [weather_part])]);
         ("partial", PBool false)].

Definition two_texts_frame : value :=
  PDict [("content",
          PDict [("parts", PList [PDict [("text", PStr "Sea")];
                                  PDict [("text", PStr "rch")]])]);
         ("partial", PBool false)].

Definition stored_text (t : string) : value :=
  PDict [("content", PDict [("parts", PList [PDict [("text", PStr t)]])]);
         ("author", PStr "user")].

Definition complete_response : response :=
  mk_response [Sample.line_call; Sample.line_hi] None.

Definition drawing : value -> result unit := fun _ => Ok tt.

Definition painting : value -> list value -> result unit := fun _ _ => Ok tt.

Definition ticking : nat -> value := fun k => PInt (Z.of_nat k).

(** A server that answers every request with status 200 and no body. *)
Definition silent : string -> string -> option value -> http_reply :=
  fun _ _ _ => Replied 200 EmptyString (Raise ValueError).

End Cases.

(** * Properties *)

(** [run_bind H] follows the successful branch of the first [bind] in [H]. *)
Ltac run_bind H :=
  match type of H with
  | context [bind ?c _] =>
      let E := fresh "E" in
      destruct c eqn:E; cbn [bind] in H; [|discriminate H]
  end.

(** ** Strings and dictionaries *)

Lemma append_empty_r (s : string) : (s ++ "")%string = s.
Proof. induction s as [|c s IH]; simpl; [reflexivity | now rewrite IH]. Qed.

Lemma append_associative (a b c : string) :
  ((a ++ b) ++ c)%string = (a ++ (b ++ c))%string.
Proof. induction a as [|x a IH]; simpl; [reflexivity | now rewrite IH]. Qed.

Lemma append_empty (a b : string) :
  (a ++ b)%string = "" -> a = "" /\ b = "".
Proof. destruct a; simpl; [auto | discriminate]. Qed.

Lemma field_is_dict (o : value) (k : string) (v : value) :
  field o k = Some v -> is_dict o = true.
Proof. destruct o; simpl; congruence. Qed.

Lemma get_field (o : value) (k : string) (d v : value) :
  field o k = Some v -> get o k d = Ok v.
Proof. destruct o; simpl; try discriminate. now intros ->. Qed.

Lemma get_missing (o : value) (k : string) (d : value) :
  is_dict o = true -> field o k = None -> get o k d = Ok d.
Proof. destruct o; simpl; try discriminate. now intros _ ->. Qed.

Lemma get_field_or (o : value) (k : string) (d : value) :
  is_dict o = true -> get o k d = Ok (field_or d o k).
Proof.
  unfold field_or. intros Hd. destruct (field o k) as [v|] eqn:E.
  - now apply get_field.
  - now apply get_missing.
Qed.

Lemma subscript_field (o : value) (k : string) (v : value) :
  field o k = Some v -> subscript o k = Ok v.
Proof. destruct o; simpl; try discriminate. now intros ->. Qed.

Lemma get_partial (event_data : value) :
  is_dict event_data = true ->
  exists v, get event_data "partial" PNone = Ok v /\ truthy v = partial_flag event_data.
Proof.
  intros Hd. unfold partial_flag.
  destruct (field event_data "partial") as [v|] eqn:E.
  - exists v. split; [now apply get_field | reflexivity].
  - exists PNone. split; [now apply get_missing | reflexivity].
Qed.

Lemma parts_of_inv (event_data : value) (parts : list value) :
  parts_of event_data = Some parts ->
  exists content,
    field event_data "content" = Some content /\
    field content "parts" = Some (PList parts).
Proof.
  unfold parts_of. destruct (field event_data "content") as [c|]; [|discriminate].
  destruct (field c "parts") as [[| | | | |items|]|] eqn:E; try discriminate.
  intros [= <-]. now exists c.
Qed.

(** ** One frame *)

(** A frame with parts runs them in order and then looks at [partial]. *)
Lemma process_event_data_parts (st : state) (event_data : value)
  (part : value) (parts : list value) :
  parts_of event_data = Some (part :: parts) ->
  process_event_data st event_data =
  (current <- process_parts (current_event st) (part :: parts) ;;
   if negb (partial_flag event_data) && truthy current
   then Ok (mk_state (formatted_events st ++ [current]) PNone)
   else Ok (mk_state (formatted_events st) current)).
Proof.
  intros H. destruct (parts_of_inv _ _ H) as (content & Hc & Hp).
  unfold process_event_data.
  rewrite (get_field _ _ _ _ Hc). cbn [bind].
  rewrite (get_field _ _ _ _ Hp). cbn [bind truthy].
  rewrite (subscript_field _ _ _ Hc). cbn [bind].
  rewrite (subscript_field _ _ _ Hp). cbn [bind iterate].
  destruct (process_parts (current_event st) (part :: parts)) as [cur|e];
    [|reflexivity].
  cbn [bind].
  destruct (get_partial event_data (field_is_dict _ _ _ Hc)) as (v & Hg & Hv).
  rewrite Hg. cbn [bind]. rewrite Hv. reflexivity.
Qed.

(** A text part extends a text builder, or starts one; an empty text
    leaves the builder as it is. *)
Lemma process_part_text (acc : string) (part : value) (s : string) :
  text_part part s ->
  process_part (text_builder acc) part = Ok (text_builder (acc ++ s)).
Proof.
  intros (Hfc & Hfr & Ht).
  pose proof (field_is_dict _ _ _ Ht) as Hd.
  unfold process_part.
  rewrite (get_missing _ _ _ Hd Hfc). cbn [bind truthy].
  rewrite (get_missing _ _ _ Hd Hfr). cbn [bind truthy].
  rewrite (get_field _ _ _ _ Ht). cbn [bind].
  destruct s as [|c s].
  - rewrite append_empty_r. reflexivity.
  - rewrite (subscript_field _ _ _ Ht).
    destruct acc as [|a acc]; reflexivity.
Qed.

Lemma truthy_text_builder (acc : string) :
  truthy (text_builder acc) = negb (String.eqb acc "").
Proof. destruct acc; reflexivity. Qed.

Lemma text_frame_partial (events : list value) (acc : string)
  (event_data : value) (s : string) :
  text_frame event_data s -> partial_flag event_data = true ->
  process_event_data (mk_state events (text_builder acc)) event_data =
  Ok (mk_state events (text_builder (acc ++ s))).
Proof.
  intros (part & Hp & Ht) Hflag.
  rewrite (process_event_data_parts _ _ _ _ Hp). cbn [process_parts current_event].
  rewrite (process_part_text _ _ _ Ht). cbn [bind].
  rewrite Hflag. reflexivity.
Qed.

Lemma text_frame_final (events : list value) (acc : string)
  (event_data : value) (s : string) :
  text_frame event_data s -> partial_flag event_data = false ->
  process_event_data (mk_state events (text_builder acc)) event_data =
  Ok (if String.eqb (acc ++ s) ""
      then mk_state events PNone
      else mk_state (events ++ [text_event (PStr (acc ++ s))]) PNone).
Proof.
  intros (part & Hp & Ht) Hflag.
  rewrite (process_event_data_parts _ _ _ _ Hp). cbn [process_parts current_event].
  rewrite (process_part_text _ _ _ Ht). cbn [bind].
  rewrite Hflag, truthy_text_builder. cbn [negb andb formatted_events].
  unfold text_builder.
  destruct (String.eqb (acc ++ s) ""); reflexivity.
Qed.

(** ** Streams *)

Section StreamFacts.

Variable decode_utf8 : string -> option string.
Variable json_loads : string -> loads_result.

Local Abbreviation reading_of := (read_line decode_utf8 json_loads).
Local Abbreviation step := (process_line decode_utf8 json_loads).
Local Abbreviation loop := (consume decode_utf8 json_loads).
Local Abbreviation frames_of := (stream_frames decode_utf8 json_loads).
Local Abbreviation process := (process_sse_events decode_utf8 json_loads).

Lemma process_line_reading (st : state) (line : string) :
  step st line =
  match reading_of line with
  | Ignored => Ok st
  | Frame event_data => process_event_data st event_data
  | Fatal e => Raise e
  end.
Proof.
  unfold process_line, read_line.
  destruct (String.eqb line ""); [reflexivity|].
  destruct (decode_utf8 line) as [text|]; [|reflexivity].
  destruct (String.prefix data_prefix text); [|reflexivity].
  destruct (json_loads _); reflexivity.
Qed.

Lemma consume_frames (lines : list string) :
  forall (frames : list value) (st : state),
    frames_of lines = Some frames ->
    loop st lines = run_frames st frames.
Proof.
  induction lines as [|line lines IH]; intros frames st H.
  - injection H as <-. reflexivity.
  - cbn [consume]. rewrite process_line_reading.
    cbn [stream_frames] in H.
    destruct (reading_of line) as [|event_data|e];
      destruct (frames_of lines) as [frames'|]; try discriminate;
      injection H as <-.
    + now apply IH.
    + cbn [run_frames].
      destruct (process_event_data st event_data) as [st'|e]; [|reflexivity].
      now apply IH.
Qed.

Lemma run_frames_app (frames rest : list value) :
  forall (st st' : state),
    run_frames st frames = (st', None) ->
    run_frames st (frames ++ rest) = run_frames st' rest.
Proof.
  induction frames as [|fr frames IH]; intros st st' H.
  - now injection H as <-.
  - cbn [run_frames app] in *.
    destruct (process_event_data st fr) as [st1|e]; [|discriminate].
    now apply IH.
Qed.

(** The frames of a stream decide what a stream that ends normally
    returns. *)
Lemma process_frames (lines : list string) (frames : list value) (st : state) :
  frames_of lines = Some frames ->
  run_frames initial frames = (st, None) ->
  process (mk_response lines None) = (formatted_events st, []).
Proof.
  intros Hf Hr. unfold process_sse_events. cbn [iter_lines broken].
  rewrite (consume_frames _ _ _ Hf), Hr. reflexivity.
Qed.

(** Partial text frames only grow the text builder. *)
Lemma run_partial_text_frames (events : list value) (partials : list value) :
  forall (ts : list string) (acc : string),
    Forall2 (fun fr s => text_frame fr s /\ partial_flag fr = true) partials ts ->
    run_frames (mk_state events (text_builder acc)) partials =
    (mk_state events (text_builder (acc ++ concat_texts ts)), None).
Proof.
  induction partials as [|fr partials IH]; intros ts acc H; inversion H; subst.
  - cbn. now rewrite append_empty_r.
  - destruct H2 as [Ht Hp]. cbn [run_frames concat_texts fold_right].
    rewrite (text_frame_partial _ _ _ _ Ht Hp).
    rewrite (IH _ _ H4). now rewrite append_associative.
Qed.

(** C1, as amended. A stream of frames that each carry one text part, all
    with [partial] true but the last, whose [partial] is false, returns
    exactly one text event, and its content is the concatenation of the
    texts in arrival order, when that concatenation is not empty; when every
    text is empty the classifier has recognised no part and returns no
    event. *)
Theorem text_stream_concatenation
  (lines : list string) (partials : list value) (final : value)
  (ts : list string) (t : string) :
  frames_of lines = Some (partials ++ [final]) ->
  Forall2 (fun fr s => text_frame fr s /\ partial_flag fr = true) partials ts ->
  text_frame final t ->
  partial_flag final = false ->
  process (mk_response lines None) =
  (if String.eqb (concat_texts ts ++ t) "" then []
   else [text_event (PStr (concat_texts ts ++ t))], []).
Proof.
  intros Hlines Hpartials Hfinal Hflag.
  pose proof (run_partial_text_frames [] partials ts "" Hpartials) as Hrun.
  cbn [append] in Hrun.
  assert (Hall : run_frames initial (partials ++ [final]) =
                 (if String.eqb (concat_texts ts ++ t) ""
                  then mk_state [] PNone
                  else mk_state [text_event (PStr (concat_texts ts ++ t))] PNone,
                  None)).
  { rewrite (run_frames_app _ _ _ _ Hrun). cbn [run_frames].
    rewrite (text_frame_final _ _ _ _ Hfinal Hflag).
    destruct (String.eqb (concat_texts ts ++ t) ""); reflexivity. }
  rewrite (process_frames _ _ _ Hlines Hall).
  destruct (String.eqb (concat_texts ts ++ t) ""); reflexivity.
Qed.

(** A line that leaves every state as it is can be taken out of the
    stream. *)
Lemma consume_without (line : string) :
  (forall st, step st line = Ok st) ->
  forall (before after : list string) (st : state),
    loop st (before ++ line :: after) = loop st (before ++ after).
Proof.
  intros Hskip before after. induction before as [|l before IH]; intros st.
  - cbn [app consume]. now rewrite Hskip.
  - cbn [app consume]. destruct (step st l) as [st'|e]; [apply IH | reflexivity].
Qed.

Lemma process_without (line : string) :
  (forall st, step st line = Ok st) ->
  forall (before after : list string) (failure : option exn),
    process (mk_response (before ++ line :: after) failure) =
    process (mk_response (before ++ after) failure).
Proof.
  intros Hskip before after failure. unfold process_sse_events.
  cbn [iter_lines broken].
  now rewrite (consume_without _ Hskip).
Qed.

Lemma malformed_line_step (bad : string) :
  malformed decode_utf8 json_loads bad -> forall st, step st bad = Ok st.
Proof.
  intros (Hne & text & Hdec & Hpre & Hloads) st. unfold process_line.
  apply String.eqb_neq in Hne. now rewrite Hne, Hdec, Hpre, Hloads.
Qed.

Lemma no_parts_step (event_data : value) :
  no_parts event_data -> forall st, process_event_data st event_data = Ok st.
Proof.
  intros (Hd & [Habsent | (entries & Hc & Hparts)]) st; unfold process_event_data.
  - now rewrite (get_missing _ _ _ Hd Habsent).
  - rewrite (get_field _ _ _ _ Hc). cbn [bind get].
    destruct Hparts as [-> | ->]; reflexivity.
Qed.

(** C9. A frame whose [content.parts] is absent or empty changes nothing:
    whatever its [partial] flag, the events returned so far and the open
    builder after it are those before it, so that a stream returns the same
    with the line of such a frame as without it. *)
Theorem frame_without_parts_ignored (event_data : value) :
  no_parts event_data ->
  (forall st, process_event_data st event_data = Ok st) /\
  (forall (line : string) (before after : list string) (failure : option exn),
      reading_of line = Frame event_data ->
      process (mk_response (before ++ line :: after) failure) =
      process (mk_response (before ++ after) failure)).
Proof.
  intros Hno. pose proof (no_parts_step _ Hno) as Hstep.
  split; [exact Hstep|].
  intros line before after failure Hread.
  apply process_without. intros st.
  now rewrite process_line_reading, Hread.
Qed.

(** A frame whose [partial] is true returns nothing. *)
Lemma partial_frame_keeps_events (st st' : state) (event_data : value) :
  partial_flag event_data = true ->
  process_event_data st event_data = Ok st' ->
  formatted_events st' = formatted_events st.
Proof.
  intros Hflag H. unfold process_event_data in H.
  destruct (get event_data "content" (PDict [])) as [content|]; [|discriminate].
  cbn [bind] in H.
  destruct (get content "parts" PNone) as [parts|]; [|discriminate].
  cbn [bind] in H.
  destruct (truthy parts); [|now injection H as <-].
  destruct (subscript event_data "content") as [content'|]; [|discriminate].
  cbn [bind] in H.
  destruct (subscript content' "parts") as [parts'|]; [|discriminate].
  cbn [bind] in H.
  destruct (iterate parts') as [items|]; [|discriminate].
  cbn [bind] in H.
  destruct (process_parts (current_event st) items) as [current|]; [|discriminate].
  cbn [bind] in H.
  unfold partial_flag in Hflag.
  destruct (field event_data "partial") as [v|] eqn:E; [|discriminate].
  rewrite (get_field _ _ _ _ E) in H. cbn [bind] in H.
  rewrite Hflag in H. cbn [negb andb] in H. now injection H as <-.
Qed.

Lemma consume_events (tail : list string) :
  (forall line event_data,
      In line tail -> reading_of line = Frame event_data ->
      partial_flag event_data = true) ->
  forall st, formatted_events (fst (loop st tail)) = formatted_events st.
Proof.
  induction tail as [|line tail IH]; intros Hopen st; [reflexivity|].
  cbn [consume]. rewrite process_line_reading.
  destruct (reading_of line) as [|event_data|e] eqn:Hread.
  - apply IH. intros l ed Hin. apply Hopen. now right.
  - destruct (process_event_data st event_data) as [st'|e] eqn:Hstep;
      [|reflexivity].
    rewrite IH by (intros l ed Hin; apply Hopen; now right).
    apply (partial_frame_keeps_events _ _ event_data); [|exact Hstep].
    apply (Hopen line); [now left | exact Hread].
  - reflexivity.
Qed.

Lemma consume_app (lines tail : list string) :
  forall st,
    loop st (lines ++ tail) =
    match loop st lines with
    | (st', None) => loop st' tail
    | (st', Some e) => (st', Some e)
    end.
Proof.
  induction lines as [|line lines IH]; intros st; [reflexivity|].
  cbn [app consume]. destruct (step st line) as [st'|e]; [apply IH | reflexivity].
Qed.

Lemma process_events (r : response) :
  fst (process r) = formatted_events (fst (loop initial (iter_lines r))).
Proof.
  unfold process_sse_events.
  destruct (loop initial (iter_lines r)) as [st [e|]]; [reflexivity|].
  destruct (broken r); reflexivity.
Qed.

(** C5, as amended. A line whose payload [json.loads] rejects with
    [JSONDecodeError] is skipped: the state is the one before it, nothing
    is returned or notified for it, and the lines after it are processed
    as if it had not been there; in particular such a line followed by the
    line of a text frame ["hi"] with [partial] false returns exactly one
    text event, with content ["hi"]. A line on whose payload [json.loads]
    raises another exception is not skipped: it ends the stream, which
    returns the events completed before it with one notification and reads
    no later line. *)
Theorem malformed_frame_skipped :
  (forall bad,
      malformed decode_utf8 json_loads bad ->
      (forall st, step st bad = Ok st) /\
      (forall (before after : list string) (failure : option exn),
          process (mk_response (before ++ bad :: after) failure) =
          process (mk_response (before ++ after) failure)) /\
      (forall (good : string) (event_data : value),
          frames_of [good] = Some [event_data] ->
          text_frame event_data "hi" ->
          partial_flag event_data = false ->
          process (mk_response [bad; good] None) =
          ([PDict [("type", PStr "text"); ("content", PStr "hi");
                   ("role", PStr "assistant")]], []))) /\
  (forall line e,
      unparsed decode_utf8 json_loads line e ->
      forall (before after : list string) (st : state) (failure : option exn),
        loop initial before = (st, None) ->
        process (mk_response (before ++ line :: after) failure) =
        (formatted_events st, [SseError e])).
Proof.
  split.
  - intros bad Hbad. pose proof (malformed_line_step _ Hbad) as Hskip.
    split; [exact Hskip | split].
    + apply process_without. exact Hskip.
    + intros good event_data Hgood Htext Hflag.
      pose proof (process_without _ Hskip [] [good] None) as Hdrop.
      cbn [app] in Hdrop. rewrite Hdrop.
      apply (process_frames _ _ (mk_state [text_event (PStr "hi")] PNone) Hgood).
      cbn [run_frames]. change initial with (mk_state [] (text_builder "")).
      now rewrite (text_frame_final _ _ _ _ Htext Hflag).
  - intros line e (Hne & text & Hdec & Hpre & Hloads) before after st failure
      Hbefore.
    unfold process_sse_events. cbn [iter_lines broken].
    rewrite consume_app, Hbefore. cbn [consume]. unfold process_line.
    apply String.eqb_neq in Hne. now rewrite Hne, Hdec, Hpre, Hloads.
Qed.

(** C7. Whatever a stream has accumulated when it stops is dropped: lines
    whose frames all have [partial] true add nothing to what the stream
    returns, whether the stream then ends or breaks; and a stream of
    partial text frames that ends normally returns no event and shows no
    notification, although the builder holds their text. *)
Theorem unfinished_event_dropped (lines tail : list string) :
  (forall line event_data,
      In line tail -> reading_of line = Frame event_data ->
      partial_flag event_data = true) ->
  (forall failure : option exn,
      fst (process (mk_response (lines ++ tail) failure)) =
      fst (process (mk_response lines None))) /\
  (forall (partials : list value) (ts : list string),
      frames_of tail = Some partials ->
      Forall2 (fun fr s => text_frame fr s /\ partial_flag fr = true) partials ts ->
      loop initial tail = (mk_state [] (text_builder (concat_texts ts)), None) /\
      process (mk_response tail None) = ([], [])).
Proof.
  intros Hopen. split.
  - intros failure. rewrite !process_events. cbn [iter_lines].
    rewrite consume_app.
    destruct (loop initial lines) as [st [e|]]; [reflexivity|].
    cbn [fst]. now apply consume_events.
  - intros partials ts Hframes Htexts.
    pose proof (run_partial_text_frames [] partials ts "" Htexts) as Hrun.
    cbn [append] in Hrun.
    split.
    + now rewrite (consume_frames _ _ _ Hframes).
    + exact (process_frames _ _ _ Hframes Hrun).
Qed.

Lemma process_part_function_call (current part call : value) :
  function_call_part part call ->
  process_part current part =
  Ok (function_call_event call (field_or PNone call "name")
        (field_or PNone call "args")).
Proof.
  intros (Hf & Hd & Ht). unfold process_part.
  rewrite (get_field _ _ _ _ Hf). cbn [bind]. rewrite Ht.
  rewrite (subscript_field _ _ _ Hf). cbn [bind].
  rewrite (get_field_or call "name" PNone Hd). cbn [bind].
  rewrite (get_field_or call "args" PNone Hd). reflexivity.
Qed.

Lemma process_part_text_fresh (current part : value) (t : string) :
  text_part part t ->
  t <> "" ->
  current = PNone \/ (is_dict current = true /\ kind_is_text current = false) ->
  process_part current part = Ok (text_event (PStr t)).
Proof.
  intros (Hfc & Hfr & Ht) Hne Hcur.
  pose proof (field_is_dict _ _ _ Ht) as Hd.
  unfold process_part.
  rewrite (get_missing _ _ _ Hd Hfc). cbn [bind truthy].
  rewrite (get_missing _ _ _ Hd Hfr). cbn [bind truthy].
  rewrite (get_field _ _ _ _ Ht). cbn [bind truthy].
  apply String.eqb_neq in Hne. rewrite Hne. cbn [negb].
  rewrite (subscript_field _ _ _ Ht).
  destruct Hcur as [-> | [Hdict Hkind]]; [reflexivity|].
  destruct (truthy current); [|reflexivity].
  rewrite (get_field_or current "type" PNone Hdict). cbn [bind].
  unfold kind_is_text in Hkind. unfold field_or.
  destruct (field current "type") as [ty|]; [now rewrite Hkind | reflexivity].
Qed.

(** C4, as amended. A [functionCall] part puts a fresh function-call
    builder in the place of the current one, whatever that was, so that the
    frame does the same after any builder as after none; a text part whose
    text is not empty, arriving while the current builder is not a text
    builder, puts a fresh text builder in its place; hence a function-call
    frame with [partial] true followed by a frame with a non-empty text part
    and [partial] false returns the text event alone. *)
Theorem function_call_replaces_builder :
  (forall current part call,
      function_call_part part call ->
      process_part current part =
      Ok (function_call_event call (field_or PNone call "name")
            (field_or PNone call "args"))) /\
  (forall events current event_data part call,
      parts_of event_data = Some [part] ->
      function_call_part part call ->
      process_event_data (mk_state events current) event_data =
      process_event_data (mk_state events PNone) event_data) /\
  (forall current part t,
      text_part part t ->
      t <> "" ->
      current = PNone \/ (is_dict current = true /\ kind_is_text current = false) ->
      process_part current part = Ok (text_event (PStr t))) /\
  (forall lines first second part call t,
      frames_of lines = Some [first; second] ->
      parts_of first = Some [part] ->
      function_call_part part call ->
      partial_flag first = true ->
      text_frame second t ->
      t <> "" ->
      partial_flag second = false ->
      process (mk_response lines None) = ([text_event (PStr t)], [])).
Proof.
  split; [exact process_part_function_call | split; [|split]].
  - intros events current event_data part call Hparts Hcall.
    rewrite !(process_event_data_parts _ _ _ _ Hparts).
    cbn [process_parts current_event formatted_events].
    now rewrite !(process_part_function_call _ _ _ Hcall).
  - exact process_part_text_fresh.
  - intros lines first second part call t Hlines Hparts Hcall Hopen
      (part' & Hparts' & Htext) Hne Hflag.
    apply (process_frames _ _ (mk_state [text_event (PStr t)] PNone) Hlines).
    cbn [run_frames]. unfold initial.
    rewrite (process_event_data_parts _ _ _ _ Hparts).
    cbn [process_parts current_event formatted_events].
    rewrite (process_part_function_call _ _ _ Hcall). cbn [bind].
    rewrite Hopen. cbn [negb andb].
    rewrite (process_event_data_parts _ _ _ _ Hparts').
    cbn [process_parts current_event formatted_events].
    rewrite (process_part_text_fresh _ _ _ Htext Hne)
      by (right; split; reflexivity).
    cbn [bind]. rewrite Hflag. reflexivity.
Qed.

Lemma process_part_video_search (current part : value)
  (resp : option (list (string * value))) :
  video_search_part part resp ->
  process_part current part = Ok (video_list_event (videos_of resp)).
Proof.
  intros (Hfc & fr & Hfr & Hname & Hresp).
  pose proof (field_is_dict _ _ _ Hfr) as Hd.
  pose proof (field_is_dict _ _ _ Hname) as Hdfr.
  unfold process_part.
  rewrite (get_missing _ _ _ Hd Hfc). cbn [bind truthy].
  rewrite (get_field _ _ _ _ Hfr). cbn [bind].
  assert (Htruthy : truthy fr = true).
  { destruct fr as [| | | | | |[|entry entries]]; try discriminate; reflexivity. }
  rewrite Htruthy, (subscript_field _ _ _ Hfr). cbn [bind].
  rewrite (get_field _ _ _ _ Hname). cbn [bind eq_str].
  change (String.eqb "search_youtube_videos" "search_youtube_videos")
    with true. cbn iota.
  destruct resp as [entries|]; cbn [option_map] in Hresp.
  - rewrite (get_field _ _ _ _ Hresp). cbn [bind get videos_of].
    destruct (lookup "videos" entries); reflexivity.
  - rewrite (get_missing _ _ _ Hdfr Hresp). reflexivity.
Qed.

Lemma process_parts_app (before after : list value) :
  forall current,
    process_parts current (before ++ after) =
    (current' <- process_parts current before ;; process_parts current' after).
Proof.
  induction before as [|part before IH]; intros current; [reflexivity|].
  cbn [app process_parts].
  destruct (process_part current part) as [current'|e]; [apply IH | reflexivity].
Qed.

(** C6, as amended. A frame whose [partial] is false and whose last part
    is a [functionResponse] of [search_youtube_videos], with a response
    that is absent or a dict (the parts before it, if any, raising
    nothing), returns a video-list event; its videos are
    [response.videos], or the empty list when the response or its [videos]
    field is missing; no exception is raised. When a text part that is not
    empty follows that part in the frame, the text builder takes the place
    of the video list, and the frame returns the text event alone. *)
Theorem video_search_response_emitted (part : value)
  (before : list value) (resp : option (list (string * value))) :
  video_search_part part resp ->
  (forall event_data st current,
      parts_of event_data = Some (before ++ [part]) ->
      partial_flag event_data = false ->
      process_parts (current_event st) before = Ok current ->
      process_event_data st event_data =
      Ok (mk_state
            (formatted_events st
               ++ [PDict [("type", PStr "video_list");
                          ("content", videos_of resp);
                          ("role", PStr "assistant")]])
            PNone)) /\
  (forall event_data lines current,
      parts_of event_data = Some (before ++ [part]) ->
      partial_flag event_data = false ->
      frames_of lines = Some [event_data] ->
      process_parts PNone before = Ok current ->
      process (mk_response lines None) =
      ([PDict [("type", PStr "video_list"); ("content", videos_of resp);
               ("role", PStr "assistant")]], [])) /\
  (forall event_data next t st current,
      parts_of event_data = Some (before ++ [part; next]) ->
      text_part next t ->
      t <> "" ->
      partial_flag event_data = false ->
      process_parts (current_event st) before = Ok current ->
      process_event_data st event_data =
      Ok (mk_state
            (formatted_events st
               ++ [PDict [("type", PStr "text"); ("content", PStr t);
                          ("role", PStr "assistant")]])
            PNone)).
Proof.
  intros Hpart.
  assert (Hstep : forall event_data st current,
             parts_of event_data = Some (before ++ [part]) ->
             partial_flag event_data = false ->
             process_parts (current_event st) before = Ok current ->
             process_event_data st event_data =
             Ok (mk_state
                   (formatted_events st ++ [video_list_event (videos_of resp)])
                   PNone)).
  { intros event_data st current Hparts Hflag Hbefore.
    assert (Hrun : process_parts (current_event st) (before ++ [part]) =
                   Ok (video_list_event (videos_of resp))).
    { rewrite process_parts_app, Hbefore. cbn [bind process_parts].
      now rewrite (process_part_video_search _ _ _ Hpart). }
    destruct (before ++ [part]) as [|first others] eqn:Hcons.
    - now destruct before.
    - rewrite (process_event_data_parts _ _ _ _ Hparts), Hrun. cbn [bind].
      now rewrite Hflag. }
  split; [exact Hstep | split].
  - intros event_data lines current Hparts Hflag Hlines Hbefore.
    apply (process_frames _ _
             (mk_state [video_list_event (videos_of resp)] PNone) Hlines).
    cbn [run_frames]. now rewrite (Hstep _ initial current Hparts Hflag Hbefore).
  - intros event_data next t st current Hparts Htext Hne Hflag Hbefore.
    assert (Hrun : process_parts (current_event st) (before ++ [part; next]) =
                   Ok (text_event (PStr t))).
    { rewrite process_parts_app, Hbefore. cbn [bind process_parts].
      rewrite (process_part_video_search _ _ _ Hpart). cbn [bind].
      rewrite (process_part_text_fresh _ _ _ Htext Hne)
        by (right; split; reflexivity).
      reflexivity. }
    destruct (before ++ [part; next]) as [|first others] eqn:Hcons.
    + now destruct before.
    + rewrite (process_event_data_parts _ _ _ _ Hparts), Hrun. cbn [bind].
      now rewrite Hflag.
Qed.

(** Every builder and every returned event has one of the three shapes. *)
Lemma process_part_streamed (current part current' : value) :
  current = PNone \/ streamed_event current ->
  process_part current part = Ok current' ->
  current' = PNone \/ streamed_event current'.
Proof.
  intros Hcur H. unfold process_part in H.
  run_bind H. destruct (truthy a).
  { do 3 run_bind H. injection H as <-. right. constructor. }
  run_bind H. destruct (truthy a0).
  { do 2 run_bind H. destruct (eq_str a2 "search_youtube_videos").
    - do 2 run_bind H. injection H as <-. right. constructor.
    - now injection H as <-. }
  run_bind H. destruct (truthy a1); [|now injection H as <-].
  destruct (truthy current) eqn:Htruthy.
  - destruct Hcur as [-> | Hshape]; [discriminate Htruthy|].
    destruct Hshape; cbn in H.
    + run_bind H. injection H as <-. right. constructor.
    + run_bind H. injection H as <-. right. constructor.
    + do 2 run_bind H. injection H as <-. right. constructor.
  - cbn [bind] in H. run_bind H. injection H as <-. right. constructor.
Qed.

Lemma process_parts_streamed (parts : list value) :
  forall current current',
    current = PNone \/ streamed_event current ->
    process_parts current parts = Ok current' ->
    current' = PNone \/ streamed_event current'.
Proof.
  induction parts as [|part parts IH]; intros current current' Hcur H.
  - now injection H as <-.
  - cbn [process_parts] in H. run_bind H.
    exact (IH _ _ (process_part_streamed _ _ _ Hcur E) H).
Qed.

Lemma process_event_data_streamed (st st' : state) (event_data : value) :
  streamed_state st ->
  process_event_data st event_data = Ok st' ->
  streamed_state st'.
Proof.
  intros [Hev Hcur] H. unfold process_event_data in H.
  do 2 run_bind H.
  destruct (truthy a0); [|injection H as <-; now split].
  do 5 run_bind H.
  pose proof (process_parts_streamed _ _ _ Hcur E4) as Hnew.
  destruct (negb (truthy a5) && truthy a4) eqn:Hflush; injection H as <-.
  - split; [|now left]. cbn [formatted_events].
    apply Forall_app. split; [exact Hev|].
    constructor; [|constructor].
    destruct Hnew as [-> | Hs]; [|exact Hs].
    cbn in Hflush. now rewrite andb_false_r in Hflush.
  - now split.
Qed.

Lemma consume_streamed (lines : list string) :
  forall st, streamed_state st -> streamed_state (fst (loop st lines)).
Proof.
  induction lines as [|line lines IH]; intros st Hst; [exact Hst|].
  cbn [consume]. rewrite process_line_reading.
  destruct (reading_of line) as [|event_data|e].
  - now apply IH.
  - destruct (process_event_data st event_data) as [st'|e] eqn:Hstep.
    + apply IH. exact (process_event_data_streamed _ _ _ Hst Hstep).
    + exact Hst.
  - exact Hst.
Qed.

Lemma process_streamed (r : response) (event : value) :
  In event (fst (process r)) -> streamed_event event.
Proof.
  rewrite process_events. intros Hin.
  assert (Hinit : streamed_state initial) by (split; [constructor | now left]).
  destruct (consume_streamed (iter_lines r) initial Hinit) as [Hall _].
  rewrite Forall_forall in Hall. now apply Hall.
Qed.

End StreamFacts.

(** ** Failed streams *)



(** ** Roles *)

Lemma streamed_event_role (event : value) :
  streamed_event event ->
  field event "role" = Some (PStr "assistant") /\
  forall now, exists m,
    streamed_message now event = Ok (Some m) /\
    field m "role" = Some (PStr "assistant").
Proof.
  intros []; (split; [reflexivity|]); intros now;
    eexists; (split; [reflexivity | reflexivity]).
Qed.

Lemma get_inv (o : value) (k : string) (d v : value) :
  get o k d = Ok v -> is_dict o = true /\ v = field_or d o k.
Proof.
  intros H. destruct o; try discriminate H. split; [reflexivity|].
  unfold field_or. cbn [get field] in *.
  destruct (lookup k entries); now injection H as <-.
Qed.

Lemma history_part_roles (event part : value) (ms : list value) (m : value) :
  history_part event part = Ok ms ->
  In m ms ->
  (field m "type" = Some (PStr "video_list") /\
   field m "role" = Some (field_or (PStr "assistant") event "author")) \/
  (field m "type" = Some (PStr "text") /\
   field m "role" = Some (field_or (PStr "unknown") event "author")).
Proof.
  intros H Hin. unfold history_part in H.
  run_bind H. destruct (truthy a).
  - do 3 run_bind H. destruct (truthy a2).
    + do 3 run_bind H. injection H as <-.
      destruct Hin as [<- | []]. left.
      destruct (get_inv _ _ _ _ E4) as [_ ->]. now split.
    + injection H as <-. destruct Hin.
  - run_bind H. destruct (truthy a0).
    + do 3 run_bind H. injection H as <-.
      destruct Hin as [<- | []]. right.
      destruct (get_inv _ _ _ _ E2) as [_ ->]. now split.
    + injection H as <-. destruct Hin.
Qed.

Lemma history_parts_roles (event : value) (parts : list value) :
  forall ms m,
    history_parts event parts = Ok ms ->
    In m ms ->
    exists part, In part parts /\
      exists ms', history_part event part = Ok ms' /\ In m ms'.
Proof.
  induction parts as [|part parts IH]; intros ms m H Hin.
  - injection H as <-. destruct Hin.
  - cbn [history_parts] in H. do 2 run_bind H. injection H as <-.
    apply in_app_or in Hin. destruct Hin as [Hin | Hin].
    + exists part. split; [now left | now exists a].
    + destruct (IH _ _ eq_refl Hin) as (part' & Hp & Hrest).
      exists part'. split; [now right | exact Hrest].
Qed.

Lemma history_event_roles (event : value) (ms : list value) (m : value) :
  history_event event = Ok ms ->
  In m ms ->
  exists part ms', history_part event part = Ok ms' /\ In m ms'.
Proof.
  intros H Hin. unfold history_event in H.
  run_bind H. destruct (truthy a); [|injection H as <-; destruct Hin].
  do 2 run_bind H. destruct (truthy a1); [|injection H as <-; destruct Hin].
  do 3 run_bind H.
  destruct (history_parts_roles _ _ _ _ H Hin) as (part & _ & ms' & Hp & Hm).
  now exists part, ms'.
Qed.

Lemma history_events_roles (events : list value) :
  forall ms m,
    history_events events = Ok ms ->
    In m ms ->
    exists event, In event events /\
      exists part ms', history_part event part = Ok ms' /\ In m ms'.
Proof.
  induction events as [|event events IH]; intros ms m H Hin.
  - injection H as <-. destruct Hin.
  - cbn [history_events] in H. do 2 run_bind H. injection H as <-.
    apply in_app_or in Hin. destruct Hin as [Hin | Hin].
    + exists event. split; [now left | exact (history_event_roles _ _ _ E Hin)].
    + destruct (IH _ _ eq_refl Hin) as (event' & He & Hrest).
      exists event'. split; [now right | exact Hrest].
Qed.

Lemma history_events_app (first second : list value) :
  history_events (first ++ second) =
  (ms <- history_events first ;;
   ms' <- history_events second ;;
   Ok (ms ++ ms')).
Proof.
  induction first as [|event first IH]; cbn [app history_events bind].
  - destruct (history_events second); reflexivity.
  - destruct (history_event event) as [ms|e]; cbn [bind]; [|reflexivity].
    rewrite IH.
    destruct (history_events first) as [ms1|e]; cbn [bind]; [|reflexivity].
    destruct (history_events second) as [ms2|e]; cbn [bind]; [|reflexivity].
    now rewrite app_assoc.
Qed.

(** The messages of a session are those of the events before one of its
    events, then those of that event, then those of the events after it;
    each block is what a session of these events alone gives. *)
Lemma stored_event_block (entries : list (string * value))
  (before after : list value) (event : value) (ms : list value) :
  lookup "events" entries = Some (PList (before ++ event :: after)) ->
  session_messages (PDict entries) = Ok ms ->
  exists ms1 ms2 ms3,
    ms = ms1 ++ ms2 ++ ms3 /\
    session_messages (PDict [("events", PList before)]) = Ok ms1 /\
    session_messages (PDict [("events", PList [event])]) = Ok ms2 /\
    session_messages (PDict [("events", PList after)]) = Ok ms3 /\
    history_event event = Ok ms2.
Proof.
  intros Hevents H.
  assert (Halone : forall events,
             session_messages (PDict [("events", PList events)]) =
             history_events events) by reflexivity.
  rewrite !Halone. cbn [history_events].
  unfold session_messages in H. cbn [get] in H.
  rewrite Hevents in H. cbn [bind iterate] in H.
  rewrite history_events_app in H. cbn [history_events] in H.
  destruct (history_events before) as [ms1|]; [|discriminate H].
  destruct (history_event event) as [ms2|]; [|discriminate H].
  destruct (history_events after) as [ms3|]; [|discriminate H].
  cbn [bind] in *. injection H as <-.
  exists ms1, ms2, ms3. now rewrite app_nil_r.
Qed.

(** C10. Every event [process_sse_events] returns has role ["assistant"],
    and so has the message the page appends for it. In the messages of a
    stored session, those built from an event are exactly those a session
    of this one event gives, in their place between those of the events
    before and after it, and each of them has the event's own [author] as
    its role when the event has one; otherwise a video-list message has
    role ["assistant"] and a text message has role ["unknown"]. *)
Theorem role_assignment
  (decode_utf8 : string -> option string) (json_loads : string -> loads_result) :
  (forall r event,
      In event (fst (process_sse_events decode_utf8 json_loads r)) ->
      field event "role" = Some (PStr "assistant") /\
      forall now, exists m,
        streamed_message now event = Ok (Some m) /\
        field m "role" = Some (PStr "assistant")) /\
  (forall entries before event after ms,
      lookup "events" entries = Some (PList (before ++ event :: after)) ->
      session_messages (PDict entries) = Ok ms ->
      exists ms1 ms2 ms3,
        ms = ms1 ++ ms2 ++ ms3 /\
        session_messages (PDict [("events", PList before)]) = Ok ms1 /\
        session_messages (PDict [("events", PList [event])]) = Ok ms2 /\
        session_messages (PDict [("events", PList after)]) = Ok ms3 /\
        forall m,
          In m ms2 ->
          (field m "type" = Some (PStr "video_list") /\
           field m "role" = Some (field_or (PStr "assistant") event "author")) \/
          (field m "type" = Some (PStr "text") /\
           field m "role" = Some (field_or (PStr "unknown") event "author"))).
Proof.
  split.
  - intros r event Hin. apply streamed_event_role.
    exact (process_streamed decode_utf8 json_loads r event Hin).
  - intros entries before event after ms Hevents H.
    destruct (stored_event_block _ _ _ _ _ Hevents H)
      as (ms1 & ms2 & ms3 & Hms & H1 & H2 & H3 & Hevent).
    exists ms1, ms2, ms3. repeat (split; [assumption|]).
    intros m Hin.
    destruct (history_event_roles _ _ _ Hevent Hin) as (part & ms' & Hp & Hm).
    exact (history_part_roles _ _ _ _ Hp Hm).
Qed.

(** ** Stored events *)


Lemma lookup_store_other (k k' : string) (v : value)
  (entries : list (string * value)) :
  k <> k' -> lookup k (store k' v entries) = lookup k entries.
Proof.
  intros Hne. apply String.eqb_neq in Hne.
  induction entries as [|[k0 v0] rest IH]; cbn [store lookup].
  - now rewrite Hne.
  - destruct (String.eqb k' k0) eqn:E; cbn [lookup].
    + apply String.eqb_eq in E. subst k0. now rewrite Hne.
    + now rewrite IH.
Qed.



(** ** Sessions *)

(** C3. The readers of a session do not keep to it. On the session
    [{id, app_name, user_id}] the session info shows the app and the user,
    and the message send of line 338, which reads [appName] and [userId],
    raises [KeyError] before anything is sent; on the same session spelled
    [{id, appName, userId}] the send goes out with the app and the user,
    and the session info, which reads [app_name] and [user_id], shows
    [None] for both. *)
Theorem session_spelling_divergence
  (decode_utf8 : string -> option string) (json_loads : string -> loads_result)
  (API_BASE_URL : string) (post : string -> value -> http_outcome)
  (prompt : value) :
  display_session_info (PDict Sample.snake_session) =
  Ok (mk_session_info (PStr "s1") (PStr "agent") (PStr "user123") (PInt 0)) /\
  send_from_session decode_utf8 json_loads API_BASE_URL post
    (PDict Sample.snake_session) prompt = Raise (KeyError "appName") /\
  display_session_info (PDict Sample.camel_session) =
  Ok (mk_session_info (PStr "s1") PNone PNone (PInt 0)) /\
  send_from_session decode_utf8 json_loads API_BASE_URL post
    (PDict Sample.camel_session) prompt =
  send_message decode_utf8 json_loads API_BASE_URL post
    (PStr "agent") (PStr "user123") (PStr "s1") prompt.
Proof. repeat split; reflexivity. Qed.

(** ** Concrete streams and sessions *)

Import Sample.

Local Abbreviation ref_frames := (stream_frames Ref.decode_utf8 Ref.json_loads).
Local Abbreviation ref_process := (process_sse_events Ref.decode_utf8 Ref.json_loads).

Ltac is_text_frame :=
  eexists; split; [reflexivity | repeat split; reflexivity].

(** The end-to-end example of the specification: ["Sea"] then
    ["rch results:"]. *)
Lemma text_stream_concatenation_witness :
  ref_process (mk_response [line_sea; ""; line_rch] None) =
  ([text_event (PStr "Search results:")], []).
Proof.
  apply (text_stream_concatenation Ref.decode_utf8 Ref.json_loads
           [line_sea; ""; line_rch]
           [text_frame_of "Sea" true] (text_frame_of "rch results:" false)
           ["Sea"] "rch results:").
  - vm_compute. reflexivity.
  - constructor; [split; [is_text_frame | reflexivity] | constructor].
  - is_text_frame.
  - reflexivity.
Defined.

(** C1 as stated fails on a single frame whose text part is empty: the
    frame carries a text part and has [partial] false, and the stream
    returns no event where the claim has one text event with content
    [""]. *)
Lemma text_stream_concatenation_counterexample :
  ref_frames [line_empty_text] = Some ([] ++ [text_frame_of "" false]) /\
  text_frame (text_frame_of "" false) "" /\
  partial_flag (text_frame_of "" false) = false /\
  ref_process (mk_response [line_empty_text] None) = ([], []) /\
  fst (ref_process (mk_response [line_empty_text] None)) <>
  [text_event (PStr (concat_texts [] ++ ""))].
Proof.
  split; [vm_compute; reflexivity|].
  split; [is_text_frame|].
  split; [reflexivity|].
  split; [vm_compute; reflexivity|].
  vm_compute. discriminate.
Qed.



(** A function call, then a text. *)
Lemma function_call_replaces_builder_witness :
  ref_process (mk_response [line_call; line_hi] None) =
  ([text_event (PStr "hi")], []).
Proof.
  apply (proj2 (proj2 (proj2
           (function_call_replaces_builder Ref.decode_utf8 Ref.json_loads)))
           [line_call; line_hi] call_frame (text_frame_of "hi" false)
           (PDict [("functionCall", call)]) call "hi").
  - vm_compute. reflexivity.
  - reflexivity.
  - repeat split; reflexivity.
  - reflexivity.
  - is_text_frame.
  - discriminate.
  - reflexivity.
Defined.

(** C4 as stated fails when the text part that follows the function call
    is empty: the function-call builder stays and is returned, where the
    claim has the text event alone. *)
Lemma function_call_replaces_builder_counterexample :
  ref_frames [line_call; line_empty_text] =
  Some [call_frame; text_frame_of "" false] /\
  function_call_part (PDict [("functionCall", call)]) call /\
  partial_flag call_frame = true /\
  text_frame (text_frame_of "" false) "" /\
  partial_flag (text_frame_of "" false) = false /\
  ref_process (mk_response [line_call; line_empty_text] None) =
  ([function_call_event call (PStr "search_youtube_videos")
      (PDict [("query", PStr "rocq")])], []) /\
  fst (ref_process (mk_response [line_call; line_empty_text] None)) <>
  [text_event (PStr "")].
Proof.
  split; [vm_compute; reflexivity|].
  split; [repeat split; reflexivity|].
  split; [reflexivity|].
  split; [is_text_frame|].
  split; [reflexivity|].
  split; [vm_compute; reflexivity|].
  vm_compute. discriminate.
Qed.

Lemma line_bad_malformed : malformed Ref.decode_utf8 Ref.json_loads line_bad.
Proof.
  split; [discriminate|]. exists line_bad. repeat split; reflexivity.
Qed.

Lemma line_huge_number_unparsed :
  unparsed Ref.decode_utf8 Ref.json_loads line_huge_number ValueError.
Proof.
  split; [discriminate|]. exists line_huge_number.
  repeat split; vm_compute; reflexivity.
Qed.

(** The two-line stream of the specification, and a stream that an
    integer of 4301 digits ends. *)
Lemma malformed_frame_skipped_witness :
  ref_process (mk_response [line_bad; line_hi] None) =
  ([PDict [("type", PStr "text"); ("content", PStr "hi");
           ("role", PStr "assistant")]], []) /\
  ref_process (mk_response ([line_hi] ++ line_huge_number :: [line_hi]) None) =
  ([PDict [("type", PStr "text"); ("content", PStr "hi");
           ("role", PStr "assistant")]], [SseError ValueError]).
Proof.
  split.
  - apply (proj2 (proj2 (proj1 (malformed_frame_skipped Ref.decode_utf8
                                  Ref.json_loads)
                           line_bad line_bad_malformed))
             line_hi (text_frame_of "hi" false)).
    + vm_compute. reflexivity.
    + is_text_frame.
    + reflexivity.
  - apply (proj2 (malformed_frame_skipped Ref.decode_utf8 Ref.json_loads)
             line_huge_number ValueError line_huge_number_unparsed
             [line_hi] [line_hi]
             (mk_state [text_event (PStr "hi")] PNone) None).
    vm_compute. reflexivity.
Defined.

(** C5 as stated fails on a payload that [json.loads] cannot parse for
    another reason than its syntax: on an integer of 4301 digits it raises
    [ValueError], the line is not skipped, and the frame ["hi"] after it is
    never read. *)
Lemma malformed_frame_skipped_counterexample :
  Ref.json_loads (String.substring 6 4301 line_huge_number) = LoadsRaise ValueError /\
  ref_process (mk_response [line_huge_number; line_hi] None) =
  ([], [SseError ValueError]) /\
  ref_process (mk_response [line_huge_number; line_hi] None) <>
  ref_process (mk_response [line_hi] None).
Proof.
  split; [vm_compute; reflexivity|].
  split; [vm_compute; reflexivity|].
  vm_compute. discriminate.
Qed.

(** The second line of that stream has, as printed, one closing brace too
    many after [parts]: it is malformed too, and the stream as printed
    returns nothing. *)
Remark printed_line_malformed :
  malformed Ref.decode_utf8 Ref.json_loads line_printed /\
  ref_process (mk_response [line_bad; line_printed] None) = ([], []).
Proof.
  split.
  - split; [discriminate|]. exists line_printed.
    repeat split; vm_compute; reflexivity.
  - vm_compute. reflexivity.
Qed.

(** A video search that found nothing. *)
Lemma video_search_response_emitted_witness :
  ref_process (mk_response [line_no_videos] None) =
  ([PDict [("type", PStr "video_list"); ("content", PList []);
           ("role", PStr "assistant")]], []).
Proof.
  apply (proj1 (proj2
           (video_search_response_emitted Ref.decode_utf8 Ref.json_loads
              (PDict [("functionResponse",
                       PDict [("name", PStr "search_youtube_videos");
                              ("response", PDict [("videos", PList [])])])])
              []
              (Some [("videos", PList [])])
              (conj eq_refl
                 (ex_intro _ _ (conj eq_refl (conj eq_refl eq_refl))))))
           no_videos_frame [line_no_videos] PNone).
  - reflexivity.
  - reflexivity.
  - vm_compute. reflexivity.
  - reflexivity.
Defined.

(** C6 as stated fails on a frame that carries the search response and,
    after it, a text part: the frame has [partial] false and returns the
    text event alone, with no video-list event for the videos found. *)
Lemma video_search_response_emitted_counterexample :
  ref_frames [line_videos_then_text] = Some [videos_then_text_frame] /\
  parts_of videos_then_text_frame = Some [found_part; PDict [("text", PStr "Found one.")]] /\
  video_search_part found_part (Some [("videos", PList [video])]) /\
  partial_flag videos_then_text_frame = false /\
  ref_process (mk_response [line_videos_then_text] None) =
  ([PDict [("type", PStr "text"); ("content", PStr "Found one.");
           ("role", PStr "assistant")]], []).
Proof.
  split; [vm_compute; reflexivity|].
  split; [reflexivity|].
  split; [split; [reflexivity | eexists; repeat split; reflexivity]|].
  split; [reflexivity|].
  vm_compute. reflexivity.
Qed.

(** A stream that stops after ["Sea"]. *)
Lemma unfinished_event_dropped_witness :
  fst (ref_process (mk_response ([line_hi] ++ [line_sea]) None)) =
  fst (ref_process (mk_response [line_hi] None)) /\
  ref_process (mk_response [line_sea] None) = ([], []).
Proof.
  assert (Hopen : forall line event_data,
             In line [line_sea] ->
             read_line Ref.decode_utf8 Ref.json_loads line = Frame event_data ->
             partial_flag event_data = true).
  { intros line event_data [<- | []] [= <-]. reflexivity. }
  split.
  - apply (proj1 (unfinished_event_dropped Ref.decode_utf8 Ref.json_loads
                    [line_hi] [line_sea] Hopen)).
  - apply (proj2 (unfinished_event_dropped Ref.decode_utf8 Ref.json_loads
                    [] [line_sea] Hopen)
             [text_frame_of "Sea" true] ["Sea"]).
    + vm_compute. reflexivity.
    + constructor; [split; [is_text_frame | reflexivity] | constructor].
Defined.


(** A frame without parts between ["Sea"] and ["rch results:"]. *)
Lemma frame_without_parts_ignored_witness :
  ref_process (mk_response ([line_sea] ++ line_no_parts :: [line_rch]) None) =
  ref_process (mk_response ([line_sea] ++ [line_rch]) None).
Proof.
  assert (Hno : no_parts no_parts_frame).
  { split; [reflexivity|]. right. eexists. split; [reflexivity|]. now right. }
  apply (proj2 (frame_without_parts_ignored Ref.decode_utf8 Ref.json_loads
                  no_parts_frame Hno)).
  vm_compute. reflexivity.
Defined.

(** A streamed text, and a stored session of a user's event followed by
    an event without author. *)
Lemma role_assignment_witness :
  field (text_event (PStr "hi")) "role" = Some (PStr "assistant") /\
  session_messages (PDict two_event_session) =
  Ok [PDict [("type", PStr "text"); ("content", PStr "find videos");
             ("role", PStr "user"); ("timestamp", PInt 0)];
      PDict [("type", PStr "video_list"); ("content", PList [video]);
             ("role", PStr "assistant"); ("timestamp", PInt 12)];
      PDict [("type", PStr "text"); ("content", PStr "done");
             ("role", PStr "unknown"); ("timestamp", PInt 12)]] /\
  exists ms1 ms2 ms3,
    [PDict [("type", PStr "text"); ("content", PStr "find videos");
            ("role", PStr "user"); ("timestamp", PInt 0)];
     PDict [("type", PStr "video_list"); ("content", PList [video]);
            ("role", PStr "assistant"); ("timestamp", PInt 12)];
     PDict [("type", PStr "text"); ("content", PStr "done");
            ("role", PStr "unknown"); ("timestamp", PInt 12)]] =
    ms1 ++ ms2 ++ ms3 /\
    session_messages (PDict [("events", PList [asked_event])]) = Ok ms1 /\
    session_messages (PDict [("events", PList [unsigned_event])]) = Ok ms2 /\
    session_messages (PDict [("events", PList [])]) = Ok ms3 /\
    forall m,
      In m ms2 ->
      (field m "type" = Some (PStr "video_list") /\
       field m "role" = Some (field_or (PStr "assistant") unsigned_event "author")) \/
      (field m "type" = Some (PStr "text") /\
       field m "role" = Some (field_or (PStr "unknown") unsigned_event "author")).
Proof.
  split; [|split].
  - apply (proj1 (role_assignment Ref.decode_utf8 Ref.json_loads)
             (mk_response [line_hi] None) (text_event (PStr "hi"))).
    vm_compute. now left.
  - reflexivity.
  - apply (proj2 (role_assignment Ref.decode_utf8 Ref.json_loads)
             two_event_session [asked_event] unsigned_event []);
      reflexivity.
Defined.

(** ** More on the stream: what ends it, what it ignores, how it composes *)

Section StreamLaws.

Variable decode_utf8 : string -> option string.
Variable json_loads : string -> loads_result.

Local Abbreviation reading_of := (read_line decode_utf8 json_loads).
Local Abbreviation step := (process_line decode_utf8 json_loads).
Local Abbreviation loop := (consume decode_utf8 json_loads).
Local Abbreviation process := (process_sse_events decode_utf8 json_loads).

(** A line that raises ends the stream: the lines after it are not read. *)
Lemma process_cut (before : list string) (line : string) (st : state) (e : exn) :
  loop initial before = (st, None) ->
  step st line = Raise e ->
  forall (after : list string) (failure : option exn),
    process (mk_response (before ++ line :: after) failure) =
    (formatted_events st, [SseError e]).
Proof.
  intros Hbefore Hstep after failure. unfold process_sse_events.
  cbn [iter_lines broken].
  rewrite (consume_app decode_utf8 json_loads), Hbefore.
  cbn [consume]. now rewrite Hstep.
Qed.

(** A payload that is JSON but not an object (a number, a string, a list,
    [null]) ends the stream with an [AttributeError]: the events completed
    before it are returned with one notification, and no later line is
    read. *)
Theorem non_object_frame_aborts
  (before : list string) (line : string) (st : state) (event_data : value) :
  loop initial before = (st, None) ->
  reading_of line = Frame event_data ->
  is_dict event_data = false ->
  forall (after : list string) (failure : option exn),
    process (mk_response (before ++ line :: after) failure) =
    (formatted_events st, [SseError AttributeError]).
Proof.
  intros Hbefore Hread Hdict. apply process_cut; [exact Hbefore|].
  rewrite process_line_reading, Hread.
  destruct event_data; try reflexivity. discriminate Hdict.
Qed.

(** A line that is not valid UTF-8 ends the stream with a
    [UnicodeDecodeError], whether or not it is a [data:] line. *)
Theorem undecodable_line_aborts
  (before : list string) (line : string) (st : state) :
  loop initial before = (st, None) ->
  line <> "" ->
  decode_utf8 line = None ->
  forall (after : list string) (failure : option exn),
    process (mk_response (before ++ line :: after) failure) =
    (formatted_events st, [SseError UnicodeDecodeError]).
Proof.
  intros Hbefore Hne Hdec. apply process_cut; [exact Hbefore|].
  unfold process_line. apply String.eqb_neq in Hne. now rewrite Hne, Hdec.
Qed.

(** Empty lines and lines that do not start with ["data: "] (comments,
    [event:] and [id:] fields) make no difference to what a stream
    returns. *)
Theorem other_lines_ignored (line : string) :
  line = "" \/
  (exists text,
      decode_utf8 line = Some text /\ String.prefix data_prefix text = false) ->
  forall (before after : list string) (failure : option exn),
    process (mk_response (before ++ line :: after) failure) =
    process (mk_response (before ++ after) failure).
Proof.
  intros Hline. apply process_without. intros st. unfold process_line.
  destruct Hline as [-> | (text & Hdec & Hpre)]; [reflexivity|].
  destruct (String.eqb line ""); [reflexivity|]. now rewrite Hdec, Hpre.
Qed.

Lemma process_event_data_grows (st st' : state) (event_data : value) :
  process_event_data st event_data = Ok st' ->
  length (formatted_events st') <= S (length (formatted_events st)).
Proof.
  intros H. unfold process_event_data in H. do 2 run_bind H.
  destruct (truthy a0); [|injection H as <-; lia].
  do 5 run_bind H.
  destruct (negb (truthy a5) && truthy a4); injection H as <-;
    cbn [formatted_events]; [|lia].
  rewrite length_app. cbn [length]. lia.
Qed.

Lemma consume_grows (lines : list string) :
  forall st,
    length (formatted_events (fst (loop st lines))) <=
    length (formatted_events st) + length lines.
Proof.
  induction lines as [|line lines IH]; intros st; cbn [consume length fst]; [lia|].
  rewrite process_line_reading.
  destruct (reading_of line) as [|event_data|e]; cbn [fst].
  - specialize (IH st). lia.
  - destruct (process_event_data st event_data) as [st'|e] eqn:Hstep;
      cbn [fst]; [|lia].
    specialize (IH st'). pose proof (process_event_data_grows _ _ _ Hstep). lia.
  - lia.
Qed.

(** A stream returns at most one event for each line it has received. *)
Theorem events_bounded_by_lines (r : response) :
  length (fst (process r)) <= length (iter_lines r).
Proof.
  rewrite (process_events decode_utf8 json_loads).
  exact (consume_grows (iter_lines r) initial).
Qed.

Lemma process_event_data_shift (pre : list value) (st : state) (event_data : value) :
  process_event_data (mk_state (pre ++ formatted_events st) (current_event st))
    event_data =
  match process_event_data st event_data with
  | Ok st' => Ok (mk_state (pre ++ formatted_events st') (current_event st'))
  | Raise e => Raise e
  end.
Proof.
  unfold process_event_data. cbn [formatted_events current_event].
  destruct (get event_data "content" (PDict [])) as [content|]; [|reflexivity].
  cbn [bind].
  destruct (get content "parts" PNone) as [parts|]; [|reflexivity].
  cbn [bind].
  destruct (truthy parts); [|reflexivity].
  destruct (subscript event_data "content") as [content'|]; [|reflexivity].
  cbn [bind].
  destruct (subscript content' "parts") as [parts'|]; [|reflexivity].
  cbn [bind].
  destruct (iterate parts') as [items|]; [|reflexivity].
  cbn [bind].
  destruct (process_parts (current_event st) items) as [current|]; [|reflexivity].
  cbn [bind].
  destruct (get event_data "partial" PNone) as [partial|]; [|reflexivity].
  cbn [bind].
  destruct (negb (truthy partial) && truthy current);
    cbn [formatted_events current_event]; [|reflexivity].
  now rewrite app_assoc.
Qed.

Lemma consume_shift (pre : list value) (lines : list string) :
  forall st,
    loop (mk_state (pre ++ formatted_events st) (current_event st)) lines =
    (mk_state (pre ++ formatted_events (fst (loop st lines)))
       (current_event (fst (loop st lines))),
     snd (loop st lines)).
Proof.
  induction lines as [|line lines IH]; intros st; [reflexivity|].
  cbn [consume]. rewrite !process_line_reading.
  destruct (reading_of line) as [|event_data|e].
  - apply IH.
  - rewrite process_event_data_shift.
    destruct (process_event_data st event_data) as [st'|e]; [apply IH | reflexivity].
  - reflexivity.
Qed.

(** Streams compose: when the lines of [first] raise nothing and leave no
    builder open, the events of [first ++ second] are the events of [first]
    followed by the events of [second], and the notifications are those of
    [second]. *)
Theorem closed_streams_compose
  (first second : list string) (st : state) (failure : option exn) :
  loop initial first = (st, None) ->
  current_event st = PNone ->
  process (mk_response (first ++ second) failure) =
  (fst (process (mk_response first None))
     ++ fst (process (mk_response second failure)),
   snd (process (mk_response second failure))).
Proof.
  intros Hfirst Hclosed. unfold process_sse_events. cbn [iter_lines broken].
  rewrite (consume_app decode_utf8 json_loads), Hfirst. cbn [fst].
  pose proof (consume_shift (formatted_events st) second initial) as Hshift.
  cbn [formatted_events current_event initial] in Hshift.
  rewrite app_nil_r, <- Hclosed in Hshift.
  destruct st as [events current]. cbn [formatted_events current_event] in *.
  rewrite Hshift.
  destruct (loop initial second) as [st2 [e|]]; cbn [fst snd formatted_events];
    [reflexivity|].
  destruct failure; reflexivity.
Qed.

End StreamLaws.

Section BuilderLaws.

Variable decode_utf8 : string -> option string.
Variable json_loads : string -> loads_result.

Local Abbreviation reading_of := (read_line decode_utf8 json_loads).
Local Abbreviation loop := (consume decode_utf8 json_loads).
Local Abbreviation process := (process_sse_events decode_utf8 json_loads).

(** After a frame that has parts and whose [partial] is false, nothing is
    left open: whatever the frame built has been returned, and the next
    frame starts from an empty builder. *)
Theorem completed_frame_closes
  (before : list string) (line : string) (st : state)
  (event_data part : value) (parts : list value) :
  loop initial (before ++ [line]) = (st, None) ->
  reading_of line = Frame event_data ->
  parts_of event_data = Some (part :: parts) ->
  partial_flag event_data = false ->
  current_event st = PNone.
Proof.
  intros Hloop Hread Hparts Hflag.
  rewrite (consume_app decode_utf8 json_loads) in Hloop.
  pose proof (consume_streamed decode_utf8 json_loads before initial) as Hinv.
  destruct (loop initial before) as [st0 [e|]]; [discriminate Hloop|].
  cbn [consume fst] in *.
  rewrite (process_line_reading decode_utf8 json_loads), Hread in Hloop.
  destruct (process_event_data st0 event_data) as [st'|e] eqn:Hstep;
    [|discriminate Hloop].
  injection Hloop as <-.
  rewrite (process_event_data_parts _ _ _ _ Hparts), Hflag in Hstep.
  destruct (process_parts (current_event st0) (part :: parts)) as [current|e]
    eqn:Hrun; [|discriminate Hstep].
  cbn [bind negb andb] in Hstep.
  assert (Hst0 : streamed_state st0).
  { apply Hinv. split; [constructor | now left]. }
  destruct (process_parts_streamed _ _ _ (proj2 Hst0) Hrun) as [-> | Hshape].
  - now injection Hstep as <-.
  - destruct Hshape; now injection Hstep as <-.
Qed.

(** A part that carries a [functionResponse] of another function than
    [search_youtube_videos] builds nothing and leaves the builder as it
    is, also when the part carries a text beside it; a frame of this one
    part with [partial] false returns the builder that was open, if any. *)
Theorem other_function_response_part (part fr : value) :
  field part "functionCall" = None ->
  field part "functionResponse" = Some fr ->
  is_dict fr = true ->
  truthy fr = true ->
  eq_str (field_or PNone fr "name") "search_youtube_videos" = false ->
  (forall current, process_part current part = Ok current) /\
  (forall st event_data,
      parts_of event_data = Some [part] ->
      partial_flag event_data = false ->
      process_event_data st event_data =
      Ok (if truthy (current_event st)
          then mk_state (formatted_events st ++ [current_event st]) PNone
          else st)).
Proof.
  intros Hfc Hfr Hd Htruthy Hname.
  assert (Hpart : forall current, process_part current part = Ok current).
  { intros current. unfold process_part.
    rewrite (get_missing _ _ _ (field_is_dict _ _ _ Hfr) Hfc). cbn [bind truthy].
    rewrite (get_field _ _ _ _ Hfr). cbn [bind]. rewrite Htruthy.
    rewrite (subscript_field _ _ _ Hfr). cbn [bind].
    rewrite (get_field_or fr "name" PNone Hd). cbn [bind].
    now rewrite Hname. }
  split; [exact Hpart|].
  intros st event_data Hparts Hflag.
  rewrite (process_event_data_parts _ _ _ _ Hparts). cbn [process_parts].
  rewrite Hpart. cbn [bind]. rewrite Hflag. cbn [negb andb].
  destruct st as [events current]. cbn [current_event formatted_events].
  destruct (truthy current); reflexivity.
Qed.

Lemma process_parts_texts (parts : list value) :
  forall (ts : list string) (acc : string),
    Forall2 text_part parts ts ->
    process_parts (text_builder acc) parts =
    Ok (text_builder (acc ++ concat_texts ts)).
Proof.
  induction parts as [|part parts IH]; intros ts acc H; inversion H; subst.
  - cbn. now rewrite append_empty_r.
  - cbn [process_parts concat_texts fold_right].
    rewrite (process_part_text _ _ _ H2). cbn [bind].
    rewrite (IH _ _ H4). now rewrite append_associative.
Qed.

(** The text parts of one frame are concatenated in their order, after the
    text accumulated by the frames before; with [partial] false the frame
    returns one text event for the whole, or none when the whole is
    empty. *)
Theorem text_parts_of_one_frame
  (events : list value) (acc : string) (event_data part : value)
  (parts : list value) (ts : list string) :
  parts_of event_data = Some (part :: parts) ->
  Forall2 text_part (part :: parts) ts ->
  process_event_data (mk_state events (text_builder acc)) event_data =
  Ok (if partial_flag event_data
      then mk_state events (text_builder (acc ++ concat_texts ts))
      else if String.eqb (acc ++ concat_texts ts) ""
           then mk_state events PNone
           else mk_state (events ++ [text_event (PStr (acc ++ concat_texts ts))])
                  PNone).
Proof.
  intros Hparts Htexts.
  rewrite (process_event_data_parts _ _ _ _ Hparts). cbn [current_event].
  rewrite (process_parts_texts _ _ _ Htexts). cbn [bind formatted_events].
  destruct (partial_flag event_data); cbn [negb andb]; [reflexivity|].
  rewrite truthy_text_builder. unfold text_builder.
  destruct (String.eqb (acc ++ concat_texts ts) ""); reflexivity.
Qed.

(** The events of a stream have one of the types [function_call],
    [video_list] and [text], never [function_response], and carry neither
    a [timestamp] nor an [author] nor a [text] entry of their own. *)
Theorem streamed_event_types (r : response) (event : value) :
  In event (fst (process r)) ->
  (field event "type" = Some (PStr "function_call") \/
   field event "type" = Some (PStr "video_list") \/
   field event "type" = Some (PStr "text")) /\
  field event "type" <> Some (PStr "function_response") /\
  field event "timestamp" = None /\
  field event "author" = None /\
  field event "text" = None.
Proof.
  intros Hin.
  destruct (process_streamed decode_utf8 json_loads r event Hin);
    (split; [auto|]); repeat split; try reflexivity; discriminate.
Qed.

End BuilderLaws.

(** ** More on stored sessions *)

(** The messages of a stored session keep the order of its events: the
    messages of a session whose events are [first ++ second] are those of
    [first] followed by those of [second]. *)
Theorem stored_events_compose
  (entries : list (string * value)) (first second : list value) :
  lookup "events" entries = Some (PList (first ++ second)) ->
  session_messages (PDict entries) =
  (ms <- session_messages (PDict [("events", PList first)]) ;;
   ms' <- session_messages (PDict [("events", PList second)]) ;;
   Ok (ms ++ ms')).
Proof.
  intros Hevents. unfold session_messages. cbn [get lookup String.eqb].
  rewrite Hevents. cbn [bind iterate lookup]. apply history_events_app.
Qed.

Lemma get_then_subscript (o : value) (k : string) (v v' : value) :
  get o k PNone = Ok v ->
  truthy v = true ->
  subscript o k = Ok v' ->
  v' = v.
Proof.
  destruct o; try discriminate. cbn [get subscript].
  destruct (lookup k entries); [congruence|].
  intros [= <-]. discriminate.
Qed.

Lemma history_part_shape (event part : value) (ms : list value) (m : value) :
  history_part event part = Ok ms ->
  In m ms ->
  ms = [m] /\
  exists ty content role,
    m = PDict [("type", PStr ty); ("content", content); ("role", role);
               ("timestamp", field_or (PInt 0) event "timestamp")] /\
    truthy content = true /\
    (ty = "video_list" \/ ty = "text").
Proof.
  intros H Hin. unfold history_part in H.
  run_bind H. destruct (truthy a).
  - do 3 run_bind H. destruct (truthy a2) eqn:Htruthy.
    + do 3 run_bind H. injection H as <-.
      destruct Hin as [<- | []]. split; [reflexivity|].
      destruct (get_inv _ _ _ _ E5) as [_ ->].
      rewrite (get_then_subscript _ _ _ _ E2 Htruthy E3).
      exists "video_list", a2, a4. repeat split; auto.
    + injection H as <-. destruct Hin.
  - run_bind H. destruct (truthy a0) eqn:Htruthy.
    + do 3 run_bind H. injection H as <-.
      destruct Hin as [<- | []]. split; [reflexivity|].
      destruct (get_inv _ _ _ _ E3) as [_ ->].
      rewrite (get_then_subscript _ _ _ _ E0 Htruthy E1).
      exists "text", a0, a2. repeat split; auto.
    + injection H as <-. destruct Hin.
Qed.

(** In the messages [load_session] builds, those of an event are exactly
    those a session of this one event gives, in their place between those
    of the events before and after it; each of them has the four entries
    [type], [content], [role] and [timestamp], in this order; its type is
    [video_list] or [text], its content is never empty, and its timestamp
    is that of this event, or 0 when the event has none. *)
Theorem stored_message_shape (entries : list (string * value))
  (before after : list value) (event : value) (ms : list value) :
  lookup "events" entries = Some (PList (before ++ event :: after)) ->
  session_messages (PDict entries) = Ok ms ->
  exists ms1 ms2 ms3,
    ms = ms1 ++ ms2 ++ ms3 /\
    session_messages (PDict [("events", PList before)]) = Ok ms1 /\
    session_messages (PDict [("events", PList [event])]) = Ok ms2 /\
    session_messages (PDict [("events", PList after)]) = Ok ms3 /\
    forall m,
      In m ms2 ->
      exists ty content role,
        m = PDict [("type", PStr ty); ("content", content); ("role", role);
                   ("timestamp", field_or (PInt 0) event "timestamp")] /\
        truthy content = true /\
        (ty = "video_list" \/ ty = "text").
Proof.
  intros Hevents H.
  destruct (stored_event_block _ _ _ _ _ Hevents H)
    as (ms1 & ms2 & ms3 & Hms & H1 & H2 & H3 & Hevent).
  exists ms1, ms2, ms3. repeat (split; [assumption|]).
  intros m Hin.
  destruct (history_event_roles _ _ _ Hevent Hin) as (part & ms' & Hp & Hm).
  exact (proj2 (history_part_shape _ _ _ _ Hp Hm)).
Qed.

(** Each part of a stored event yields one message at most. *)
Lemma stored_part_one_message (event part : value) (ms : list value) :
  history_part event part = Ok ms -> length ms <= 1.
Proof.
  intros H. destruct ms as [|m ms]; [cbn; lia|].
  destruct (history_part_shape _ _ _ _ H (or_introl eq_refl)) as [[= ->] _].
  cbn. lia.
Qed.

(** ** Chat turns *)

Section TurnLaws.

Variable decode_utf8 : string -> option string.
Variable json_loads : string -> loads_result.
Variable API_BASE_URL : string.
Variable post : string -> value -> http_outcome.
Variable display_event : value -> result unit.
Variable draw_page : value -> list value -> result unit.
Variable clock : nat -> value.

Local Abbreviation send :=
  (send_from_session decode_utf8 json_loads API_BASE_URL post).
Local Abbreviation turn :=
  (chat_turn decode_utf8 json_loads API_BASE_URL post display_event draw_page
     clock).
Local Abbreviation appended := (append_events display_event clock).

Lemma send_message_streamed
  (app_name user_id session_id message : value)
  (events : list value) (shown : list notification) :
  send_message decode_utf8 json_loads API_BASE_URL post
    app_name user_id session_id message = Ok (events, shown) ->
  Forall streamed_event events.
Proof.
  unfold send_message. intros H. run_bind H.
  destruct a as [[r|] shown0].
  - pose proof (process_streamed decode_utf8 json_loads r) as Hshape.
    destruct (process_sse_events decode_utf8 json_loads r) as [events0 shown'].
    injection H as <- _. apply Forall_forall. exact Hshape.
  - injection H as <- _. constructor.
Qed.

Lemma append_events_streamed (events : list value) :
  Forall streamed_event events ->
  forall k,
    Forall (fun m => field m "role" = Some (PStr "assistant"))
      (fst (appended k events)) /\
    length (fst (appended k events)) <= length events /\
    ((forall event, display_event event = Ok tt) ->
     length (fst (appended k events)) = length events /\
     snd (appended k events) = None).
Proof.
  induction 1 as [|event events Hshape _ IH]; intros k.
  - cbn. repeat split; auto.
  - cbn [append_events].
    destruct (streamed_event_role _ Hshape) as [_ Hmsg].
    destruct (Hmsg (clock k)) as (m & -> & Hrole).
    destruct (display_event event) as [[]|e] eqn:Hdisplay.
    + destruct (IH (S k)) as (Hroles & Hlen & Hall).
      destruct (appended (S k) events) as [ms raised]. cbn [fst snd length] in *.
      split; [now constructor | split; [lia|]].
      intros Hok. destruct (Hall Hok) as [-> ->]. now split.
    + cbn [fst snd length]. split; [now repeat constructor | split; [lia|]].
      intros Hok. rewrite Hok in Hdisplay. discriminate Hdisplay.
Qed.

(** A chat turn only adds to the message list. When the script does not
    reach the chat input (no session, a session without [id], for which
    line 275 raises, or a page that raises while it is drawn), nothing is
    added. When it does, the earlier messages stay, the user's prompt comes
    next, and then the messages of the events, all with role [assistant]
    and one per event at most; when the send raises (the [KeyError] of a
    session without [appName] or [userId], or an exception of the post
    that is not a [RequestException]), the prompt is the only message
    added and the turn ends with that exception; when drawing the events
    raises nothing, every event gets its message. *)
Theorem chat_turn_messages (session prompt : value) (before : list value) :
  (truthy session = false \/
   (exists e, subscript session "id" = Raise e) \/
   (exists e, draw_page session before = Raise e) ->
   fst (fst (turn session prompt before)) = before) /\
  (truthy session = true ->
   (exists id, subscript session "id" = Ok id) ->
   (exists u, draw_page session before = Ok u) ->
   exists added,
     fst (fst (turn session prompt before)) =
     before ++ user_message prompt (clock 0) :: added /\
     Forall (fun m => field m "role" = Some (PStr "assistant")) added /\
     (forall e,
         send session prompt = Raise e ->
         added = [] /\ snd (turn session prompt before) = Some e) /\
     (forall events shown,
         send session prompt = Ok (events, shown) ->
         length added <= length events /\
         ((forall event, display_event event = Ok tt) ->
          length added = length events /\
          snd (turn session prompt before) = None))).
Proof.
  unfold chat_turn. split.
  - intros [Hnone | [[e Hid] | [e Hdraw]]].
    + now rewrite Hnone.
    + rewrite Hid. now destruct (truthy session).
    + destruct (truthy session); [|reflexivity].
      destruct (subscript session "id"); [|reflexivity]. now rewrite Hdraw.
  - intros -> [id ->] [u ->]. unfold handle_prompt.
    destruct (send session prompt) as [[events shown]|e] eqn:Hsend.
    + assert (Hshapes : Forall streamed_event events).
      { unfold send_from_session in Hsend. do 3 run_bind Hsend.
        exact (send_message_streamed _ _ _ _ _ _ Hsend). }
      destruct (append_events_streamed events Hshapes 1) as (Hroles & Hlen & Hall).
      destruct (appended 1 events) as [ms raised]. cbn [fst snd] in *.
      exists ms. split; [now rewrite <- app_assoc|].
      split; [exact Hroles|]. split; [discriminate|].
      intros events' shown' [= <- <-]. split; [exact Hlen | exact Hall].
    + exists []. cbn [fst snd]. split; [reflexivity|].
      split; [constructor|]. split.
      * intros e' [= <-]. now split.
      * discriminate.
Qed.

End TurnLaws.

(** ** Strings: occurrences and pieces *)

Lemma starts_with_app (p t : string) : starts_with p (p ++ t) = true.
Proof.
  induction p as [|a p IH]; cbn; [reflexivity|].
  now rewrite Ascii.eqb_refl, IH.
Qed.

Lemma starts_with_inv (p s : string) :
  starts_with p s = true -> exists t, s = (p ++ t)%string.
Proof.
  revert s. induction p as [|a p IH]; intros s H.
  - now exists s.
  - destruct s as [|b s]; [discriminate H|]. cbn in H.
    apply andb_true_iff in H. destruct H as [Hab Hrest].
    apply Ascii.eqb_eq in Hab. subst b.
    destruct (IH _ Hrest) as [t ->]. now exists t.
Qed.

Lemma has_char_app (c : ascii) (a b : string) :
  has_char c (a ++ b) = has_char c a || has_char c b.
Proof.
  induction a as [|x a IH]; cbn; [reflexivity|].
  now rewrite IH, orb_assoc.
Qed.

Lemma starts_with_has_char (c : ascii) (p s : string) :
  starts_with p s = true -> has_char c p = true -> has_char c s = true.
Proof.
  intros Hp Hc. destruct (starts_with_inv _ _ Hp) as [t ->].
  now rewrite has_char_app, Hc.
Qed.

(** A prefix without [y] of a text that reads [a], then [y], lies within
    [a]. *)
Lemma starts_with_before (y : ascii) (p : string) :
  has_char y p = false ->
  forall a b, starts_with p (a ++ String y b) = true -> starts_with p a = true.
Proof.
  induction p as [|q p IH]; intros Hy a b H; [reflexivity|].
  cbn in Hy. apply orb_false_iff in Hy. destruct Hy as [Hq Hp].
  destruct a as [|c a]; cbn in H |- *.
  - rewrite Ascii.eqb_sym, Hq in H. discriminate H.
  - apply andb_true_iff in H. destruct H as [-> Hrest]. cbn.
    exact (IH Hp _ _ Hrest).
Qed.

Lemma split_from_head (sep : string) (s : string) :
  forall piece, exists more rest,
    split_from sep 0 piece s = (piece ++ more)%string :: rest.
Proof.
  induction s as [|c s IH]; intros piece.
  - exists EmptyString, []. cbn. now rewrite append_empty_r.
  - cbn [split_from]. destruct (starts_with sep (String c s)).
    + exists EmptyString. eexists. now rewrite append_empty_r.
    + destruct (IH (piece ++ String c EmptyString)%string) as (more & rest & ->).
      exists (String c more), rest. now rewrite append_associative.
Qed.

Lemma contains_here (needle t : string) : contains needle (needle ++ t) = true.
Proof.
  destruct (needle ++ t)%string eqn:E; cbn [contains];
    rewrite <- E, starts_with_app; reflexivity.
Qed.

Lemma contains_later (needle a s : string) :
  contains needle s = true -> contains needle (a ++ s) = true.
Proof.
  intros H. induction a as [|c a IH]; [exact H|].
  cbn [append contains]. rewrite IH. apply orb_true_r.
Qed.

Lemma contains_end (a b s : string) :
  contains (a ++ b) s = true -> contains b s = true.
Proof.
  induction s as [|c s IH]; cbn [contains]; intros H.
  - rewrite orb_false_r in H. destruct (starts_with_inv _ _ H) as [t Ht].
    symmetry in Ht. rewrite append_associative in Ht.
    destruct (append_empty _ _ Ht) as [-> Hb].
    destruct (append_empty _ _ Hb) as [-> _]. reflexivity.
  - apply orb_true_iff in H. destruct H as [H | H].
    + destruct (starts_with_inv _ _ H) as [t Ht].
      change (contains b (String c s) = true). rewrite Ht, append_associative.
      apply contains_later, contains_here.
    + rewrite (IH H). apply orb_true_r.
Qed.

Lemma contains_has_char (c : ascii) (needle s : string) :
  contains needle s = true -> has_char c needle = true -> has_char c s = true.
Proof.
  intros H Hc. induction s as [|x s IH]; cbn [contains] in H.
  - rewrite orb_false_r in H. exact (starts_with_has_char _ _ _ H Hc).
  - apply orb_true_iff in H. destruct H as [H | H].
    + exact (starts_with_has_char _ _ _ H Hc).
    + cbn. rewrite (IH H). apply orb_true_r.
Qed.

(** Where the separator occurs, [split] gives two pieces or more. *)
Lemma split_two_pieces (sep : string) (s : string) :
  sep <> EmptyString ->
  contains sep s = true ->
  forall piece, exists a b rest, split_from sep 0 piece s = a :: b :: rest.
Proof.
  intros Hsep. induction s as [|c s IH]; intros H piece.
  - cbn in H. rewrite orb_false_r in H. destruct sep; [contradiction | discriminate H].
  - cbn [split_from]. cbn [contains] in H.
    destruct (starts_with sep (String c s)).
    + destruct (String.length sep - 1) as [|k].
      * destruct (split_from_head sep s EmptyString) as (more & rest & ->).
        now exists piece, (EmptyString ++ more)%string, rest.
      * assert (Hne : forall k p t, exists h r, split_from sep k p t = h :: r).
        { clear. intros k p t. revert k p.
          induction t as [|x t IHt]; intros k p; [now exists p, []|].
          cbn [split_from]. destruct k as [|k]; [|apply IHt].
          destruct (starts_with sep (String x t)); [eauto | apply IHt]. }
        destruct (Hne (S k) EmptyString s) as (h & r & ->).
        now exists piece, h, r.
    + cbn [orb] in H. exact (IH H _).
Qed.

(** The first piece runs over a text [id] that lacks a character of the
    separator, up to the end or beyond a character [y] that the separator
    lacks. *)
Lemma split_head_until (sep : string) (x y : ascii) :
  has_char x sep = true ->
  has_char y sep = false ->
  forall id, has_char x id = false ->
  forall piece tail,
    tail = EmptyString \/ (exists r, tail = String y r) ->
    exists more rest,
      split_from sep 0 piece (id ++ tail) = (piece ++ id ++ more)%string :: rest /\
      (more = EmptyString \/ exists r, more = String y r).
Proof.
  intros Hx Hy. induction id as [|c id IH]; intros Hid piece tail Htail.
  - cbn [append]. destruct Htail as [-> | [r ->]].
    + exists EmptyString, []. split; [|now left].
      cbn [split_from append]. now rewrite append_empty_r.
    + cbn [split_from].
      assert (Hstart : starts_with sep (String y r) = false).
      { destruct (starts_with sep (String y r)) eqn:E; [|reflexivity].
        pose proof (starts_with_before y sep Hy EmptyString r E) as Hempty.
        destruct sep; [discriminate Hx | discriminate Hempty]. }
      rewrite Hstart.
      destruct (split_from_head sep r (piece ++ String y EmptyString)%string)
        as (more & rest & ->).
      exists (String y more), rest. split; [|right; now exists more].
      now rewrite append_associative.
  - cbn in Hid. apply orb_false_iff in Hid. destruct Hid as [Hc Hid].
    cbn [append split_from].
    assert (Hstart : starts_with sep (String c (id ++ tail)) = false).
    { destruct (starts_with sep (String c (id ++ tail))) eqn:E; [|reflexivity].
      exfalso.
      assert (Hin : starts_with sep (String c id) = true).
      { destruct Htail as [-> | [r ->]].
        - now rewrite append_empty_r in E.
        - exact (starts_with_before y sep Hy (String c id) r E). }
      pose proof (starts_with_has_char x _ _ Hin Hx) as Hhas.
      cbn in Hhas. rewrite Hc, Hid in Hhas. discriminate Hhas. }
    rewrite Hstart.
    destruct (IH Hid (piece ++ String c EmptyString)%string tail Htail)
      as (more & rest & -> & Hmore).
    exists more, rest. split; [|exact Hmore].
    now rewrite append_associative.
Qed.

(** The first piece for a separator of one character. *)
Lemma split_char_head (y : ascii) (id : string) :
  has_char y id = false ->
  forall piece more,
    more = EmptyString \/ (exists r, more = String y r) ->
    exists rest,
      split_from (String y EmptyString) 0 piece (id ++ more) =
      (piece ++ id)%string :: rest.
Proof.
  induction id as [|c id IH]; intros Hid piece more Hmore.
  - cbn [append]. rewrite append_empty_r.
    destruct Hmore as [-> | [r ->]]; [now exists []|].
    cbn [split_from starts_with]. rewrite Ascii.eqb_refl. cbn. eauto.
  - cbn in Hid. apply orb_false_iff in Hid. destruct Hid as [Hc Hid].
    cbn [append split_from starts_with]. rewrite Hc. cbn [andb].
    destruct (IH Hid (piece ++ String c EmptyString)%string more Hmore)
      as (rest & ->).
    exists rest. now rewrite append_associative.
Qed.

(** ** Video links and the session list *)

(** [extract_youtube_id] never raises: where it finds one of its two
    markers in the link, the pieces it indexes are there, and it returns an
    id; it returns [None] exactly when the link has neither marker. *)
Theorem extract_youtube_id_total (url : string) :
  exists r,
    extract_youtube_id url = Item r /\
    (r = None <->
     contains "youtube.com/watch?v=" url = false /\
     contains "youtu.be/" url = false).
Proof.
  unfold extract_youtube_id, split.
  destruct (contains "youtube.com/watch?v=" url) eqn:Hwatch.
  - assert (Hsep : contains "watch?v=" url = true)
      by exact (contains_end "youtube.com/" "watch?v=" url Hwatch).
    destruct (split_two_pieces "watch?v=" url ltac:(discriminate) Hsep EmptyString)
      as (a & b & rest & ->).
    cbn [item nth_error].
    destruct (split_from_head "&" b EmptyString) as (more & rest' & ->).
    cbn [item nth_error]. eexists. split; [reflexivity|].
    split; [discriminate | intros [H _]; discriminate H].
  - destruct (contains "youtu.be/" url) eqn:Hshort.
    + destruct (split_two_pieces "youtu.be/" url ltac:(discriminate) Hshort
                  EmptyString) as (a & b & rest & ->).
      cbn [item nth_error].
      destruct (split_from_head "?" b EmptyString) as (more & rest' & ->).
      cbn [item nth_error]. eexists. split; [reflexivity|].
      split; [discriminate | intros [_ H]; discriminate H].
    + exists None. now repeat split.
Qed.

(** No ["watch?v="] starts within a text without [?] that is followed by
    ["watch?v="]. *)
Lemma no_early_marker (a b : string) :
  has_char "?" a = false ->
  a <> EmptyString ->
  starts_with "watch?v=" (a ++ "watch?v=" ++ b) = false.
Proof.
  intros Ha Hne.
  destruct a as [|c1 [|c2 [|c3 [|c4 [|c5 [|c6 a]]]]]]; try contradiction;
    cbn [has_char] in Ha; cbn [append starts_with];
    repeat match goal with
           | |- context [Ascii.eqb ?p ?q] =>
               is_var q; destruct (Ascii.eqb p q) eqn:?; cbn [andb];
               try reflexivity
           end;
    try reflexivity.
  repeat (apply orb_false_iff in Ha; destruct Ha as [? Ha]). congruence.
Qed.

Lemma split_first_marker (a : string) :
  has_char "?" a = false ->
  forall piece b,
    split_from "watch?v=" 0 piece (a ++ "watch?v=" ++ b) =
    (piece ++ a)%string :: split_from "watch?v=" 0 EmptyString b.
Proof.
  induction a as [|c a IH]; intros Ha piece b.
  - rewrite append_empty_r. cbn [append split_from starts_with].
    rewrite !Ascii.eqb_refl. cbn. destruct b; reflexivity.
  - pose proof (no_early_marker (String c a) b Ha ltac:(discriminate)) as Hno.
    change (String c a ++ "watch?v=" ++ b)%string
      with (String c (a ++ "watch?v=" ++ b)) in Hno |- *.
    cbn [split_from]. rewrite Hno.
    cbn [has_char] in Ha. apply orb_false_iff in Ha. destruct Ha as [_ Ha].
    rewrite (IH Ha). now rewrite append_associative.
Qed.

(** A watch link gives its id back: for a link that reads, after any text
    without [?], ["youtube.com/watch?v="], an id without [?] and [&], and
    then nothing or [&] and more parameters, [extract_youtube_id] returns
    the id. *)
Theorem watch_url_round_trip (pre id tail : string) :
  has_char "?" pre = false ->
  has_char "?" id = false ->
  has_char "&" id = false ->
  tail = EmptyString \/ (exists r, tail = String "&" r) ->
  extract_youtube_id (pre ++ "youtube.com/watch?v=" ++ id ++ tail) =
  Item (Some id).
Proof.
  intros Hpre Hid Hamp Htail. unfold extract_youtube_id, split.
  rewrite (contains_later _ pre _ (contains_here "youtube.com/watch?v=" (id ++ tail))).
  change (pre ++ "youtube.com/watch?v=" ++ id ++ tail)%string
    with (pre ++ "youtube.com/" ++ "watch?v=" ++ id ++ tail)%string.
  rewrite <- (append_associative pre "youtube.com/").
  rewrite split_first_marker
    by (rewrite has_char_app, Hpre; reflexivity).
  destruct (split_head_until "watch?v=" "?" "&" eq_refl eq_refl id Hid
              EmptyString tail Htail) as (more & rest & -> & Hmore).
  cbn [item nth_error append].
  destruct (split_char_head "&" id Hamp EmptyString more Hmore) as (rest' & ->).
  reflexivity.
Qed.

(** A short link gives its id back: for ["https://youtu.be/"], an id
    without [/] and [?], and then nothing or [?] and parameters, in a link
    that has no ["youtube.com/watch?v="], [extract_youtube_id] returns the
    id. *)
Theorem short_url_round_trip (id tail : string) :
  has_char "/" id = false ->
  has_char "?" id = false ->
  tail = EmptyString \/ (exists r, tail = String "?" r) ->
  contains "youtube.com/watch?v=" ("https://youtu.be/" ++ id ++ tail) = false ->
  extract_youtube_id ("https://youtu.be/" ++ id ++ tail) = Item (Some id).
Proof.
  intros Hslash Hid Htail Hwatch. unfold extract_youtube_id, split.
  rewrite Hwatch.
  change ("https://youtu.be/" ++ id ++ tail)%string
    with ("https://" ++ "youtu.be/" ++ id ++ tail)%string.
  rewrite (contains_later _ "https://" _ (contains_here "youtu.be/" (id ++ tail))).
  cbn [append split_from starts_with Ascii.eqb Bool.eqb andb String.length
         Nat.sub].
  destruct (split_head_until "youtu.be/" "/" "?" eq_refl eq_refl id Hslash
              EmptyString tail Htail) as (more & rest & -> & Hmore).
  cbn [item nth_error append].
  destruct (split_char_head "?" id Hid EmptyString more Hmore) as (rest' & ->).
  reflexivity.
Qed.

(** The session list gives the session id back: the text before the first
    space of an entry is the id, for an id without a space; an id with a
    space comes back cut at its first space. *)
Theorem session_option_round_trip (id date : string) :
  has_char " " id = false ->
  selected_session_id (session_option id date) = Item id /\
  forall rest,
    selected_session_id (session_option (id ++ String " " rest) date) = Item id.
Proof.
  intros Hid. unfold selected_session_id, session_option, split. split.
  - destruct (split_char_head " " id Hid EmptyString
                (String " " ("(" ++ date ++ ")"))
                (or_intror (ex_intro _ _ eq_refl))) as (rest & Hsplit).
    cbn [append] in Hsplit |- *. now rewrite Hsplit.
  - intros rest. rewrite append_associative.
    destruct (split_char_head " " id Hid EmptyString
                (String " " rest ++ " (" ++ date ++ ")")
                (or_intror (ex_intro _ _ eq_refl))) as (rest' & Hsplit).
    cbn [append] in Hsplit |- *. now rewrite Hsplit.
Qed.

(** [format_video_response] on a dict never raises and always returns the
    same eight entries, with type [video]; the id is read from [videoId]
    and written as [video_id]; a field the video lacks is [None]; entries
    of the video under other keys make no difference. *)
Theorem format_video_response_fields (entries : list (string * value)) :
  (exists out,
      format_video_response (PDict entries) = Ok (PDict out) /\
      map fst out =
      ["type"; "video_id"; "title"; "description"; "thumbnail"; "channel";
       "url"; "publishedAt"] /\
      lookup "type" out = Some (PStr "video") /\
      lookup "video_id" out = Some (field_or PNone (PDict entries) "videoId") /\
      (forall k,
          In k ["title"; "description"; "thumbnail"; "channel"; "url";
                "publishedAt"] ->
          lookup k out = Some (field_or PNone (PDict entries) k))) /\
  (forall k v,
      ~ In k ["videoId"; "title"; "description"; "thumbnail"; "channel"; "url";
              "publishedAt"] ->
      format_video_response (PDict (store k v entries)) =
      format_video_response (PDict entries)).
Proof.
  split.
  - unfold format_video_response.
    rewrite !(fun k => get_field_or (PDict entries) k PNone eq_refl).
    cbn [bind]. eexists. split; [reflexivity|].
    split; [reflexivity|]. split; [reflexivity|]. split; [reflexivity|].
    intros k Hk. cbn [In] in Hk.
    repeat (destruct Hk as [<- | Hk]; [reflexivity|]). destruct Hk.
  - intros k v Hk. unfold format_video_response. cbn [get].
    rewrite !(fun key H => lookup_store_other key k v entries H);
      try reflexivity;
      intros <-; apply Hk; cbn; tauto.
Qed.

(** ** Plain requests *)

(** [make_api_request] shows one notification at most, and only together
    with the result [None]; the exceptions it lets through are those that
    are not a [RequestException]. *)
Theorem make_api_request_outcomes
  (API_BASE_URL : string)
  (request : string -> string -> option value -> http_reply)
  (endpoint method : string) (data : value) :
  (forall v shown,
      make_api_request API_BASE_URL request endpoint method data = Ok (v, shown) ->
      shown = [] \/ (v = PNone /\ exists e, shown = [ApiError e])) /\
  (forall e,
      make_api_request API_BASE_URL request endpoint method data = Raise e ->
      is_request_exception e = false).
Proof.
  assert (Hcaught : forall e,
             (forall v shown, caught e = Ok (v, shown) ->
                shown = [] \/ (v = PNone /\ exists e', shown = [ApiError e'])) /\
             (forall e', caught e = Raise e' -> is_request_exception e' = false)).
  { intros e. unfold caught.
    destruct (is_request_exception e) eqn:He; split.
    - intros v shown [= <- <-]. right. split; [reflexivity | now exists e].
    - discriminate.
    - discriminate.
    - now intros e' [= <-]. }
  unfold make_api_request.
  destruct (if String.eqb method "POST"
            then request "POST" (API_BASE_URL ++ endpoint)%string (Some data)
            else request method (API_BASE_URL ++ endpoint)%string None)
    as [e|status_code content json]; [exact (Hcaught e)|].
  destruct (raise_for_status status_code) as [[]|e]; [|exact (Hcaught e)].
  destruct (String.eqb content "").
  - split; [intros v shown [= <- <-]; now left | discriminate].
  - destruct json as [v|e]; [|exact (Hcaught e)].
    split; [intros v' shown [= <- <-]; now left | discriminate].
Qed.

(** A reply without a body, or whose JSON is empty or null, does not
    create a session: the page keeps its session and its messages,
    [create_session] returns [None], and nothing is notified. *)
Theorem create_session_empty_reply
  (API_BASE_URL : string)
  (request : string -> string -> option value -> http_reply)
  (app_name user_id : string) (initial_state : value) (pg : page)
  (status_code : Z) (content : string) (json : result value) :
  request "POST"
    (API_BASE_URL ++ "/apps/" ++ app_name ++ "/users/" ++ user_id ++ "/sessions")%string
    (Some (if truthy initial_state then initial_state else PDict [])) =
  Replied status_code content json ->
  ~ (400 <= status_code < 600)%Z ->
  content = "" \/ (exists v, json = Ok v /\ truthy v = false) ->
  create_session API_BASE_URL request app_name user_id initial_state pg =
  Ok (pg, PNone, []).
Proof.
  intros Hreply Hok Hempty. unfold create_session, make_api_request.
  cbn [String.eqb Ascii.eqb Bool.eqb]. rewrite Hreply.
  unfold raise_for_status.
  destruct ((400 <=? status_code)%Z && (status_code <? 600)%Z) eqn:Hstatus.
  { apply andb_true_iff in Hstatus. destruct Hstatus as [Hlo Hhi].
    apply Z.leb_le in Hlo. apply Z.ltb_lt in Hhi. now destruct Hok. }
  destruct (String.eqb content "") eqn:Hcontent; [reflexivity|].
  destruct Hempty as [-> | (v & -> & Hfalsy)]; [discriminate Hcontent|].
  cbn [bind]. now rewrite Hfalsy.
Qed.

(** ** More concrete runs *)

Import Cases.

Lemma non_object_frame_aborts_witness :
  ref_process (mk_response ([line_hi] ++ line_number :: [line_hi]) None) =
  ([text_event (PStr "hi")], [SseError AttributeError]).
Proof.
  apply (non_object_frame_aborts Ref.decode_utf8 Ref.json_loads
           [line_hi] line_number
           (mk_state [text_event (PStr "hi")] PNone) (PInt 5)).
  - vm_compute. reflexivity.
  - vm_compute. reflexivity.
  - reflexivity.
Defined.

Lemma undecodable_line_aborts_witness :
  ref_process (mk_response ([line_hi] ++ line_undecodable :: [line_hi]) None) =
  ([text_event (PStr "hi")], [SseError UnicodeDecodeError]).
Proof.
  apply (undecodable_line_aborts Ref.decode_utf8 Ref.json_loads
           [line_hi] line_undecodable
           (mk_state [text_event (PStr "hi")] PNone)).
  - vm_compute. reflexivity.
  - discriminate.
  - vm_compute. reflexivity.
Defined.

Lemma other_lines_ignored_witness :
  ref_process (mk_response ([line_sea] ++ line_comment :: [line_rch]) None) =
  ref_process (mk_response ([line_sea] ++ [line_rch]) None).
Proof.
  apply (other_lines_ignored Ref.decode_utf8 Ref.json_loads line_comment).
  right. exists line_comment. split; vm_compute; reflexivity.
Defined.

Lemma closed_streams_compose_witness :
  ref_process (mk_response ([line_hi] ++ [line_sea; line_rch]) None) =
  ([text_event (PStr "hi")] ++ [text_event (PStr "Search results:")], []).
Proof.
  apply (closed_streams_compose Ref.decode_utf8 Ref.json_loads
           [line_hi] [line_sea; line_rch]
           (mk_state [text_event (PStr "hi")] PNone) None).
  - vm_compute. reflexivity.
  - reflexivity.
Defined.

Lemma completed_frame_closes_witness :
  current_event (mk_state [text_event (PStr "Search results:")] PNone) = PNone.
Proof.
  apply (completed_frame_closes Ref.decode_utf8 Ref.json_loads
           [line_sea] line_rch
           (mk_state [text_event (PStr "Search results:")] PNone)
           (text_frame_of "rch results:" false)
           (PDict [("text", PStr "rch results:")]) []).
  - vm_compute. reflexivity.
  - vm_compute. reflexivity.
  - reflexivity.
  - reflexivity.
Defined.

Lemma other_function_response_part_witness :
  process_part (text_event (PStr "Sea")) weather_part =
  Ok (text_event (PStr "Sea")) /\
  process_event_data (mk_state [] (text_event (PStr "Sea"))) weather_frame =
  Ok (mk_state [text_event (PStr "Sea")] PNone).
Proof.
  pose proof (other_function_response_part weather_part
                (PDict [("name", PStr "get_weather");
                        ("response", PDict [("videos", PList [PStr "v"])])])
                eq_refl eq_refl eq_refl eq_refl eq_refl) as [Hpart Hframe].
  split.
  - apply Hpart.
  - apply (Hframe (mk_state [] (text_event (PStr "Sea"))) weather_frame);
      reflexivity.
Defined.

Lemma text_parts_of_one_frame_witness :
  process_event_data (mk_state [] (text_builder "")) two_texts_frame =
  Ok (mk_state [text_event (PStr "Search")] PNone).
Proof.
  apply (text_parts_of_one_frame [] "" two_texts_frame
           (PDict [("text", PStr "Sea")]) [PDict [("text", PStr "rch")]]
           ["Sea"; "rch"]).
  - reflexivity.
  - repeat constructor.
Defined.

Lemma streamed_event_types_witness :
  field (text_event (PStr "hi")) "type" <> Some (PStr "function_response") /\
  field (text_event (PStr "hi")) "timestamp" = None.
Proof.
  destruct (streamed_event_types Ref.decode_utf8 Ref.json_loads
              (mk_response [line_hi] None) (text_event (PStr "hi")))
    as (_ & Hnever & Hstamp & _).
  - vm_compute. now left.
  - now split.
Defined.

Lemma stored_events_compose_witness :
  session_messages
    (PDict [("id", PStr "s1");
            ("events", PList ([stored_text "find videos"] ++ [stored_text "more"]))]) =
  Ok ([PDict [("type", PStr "text"); ("content", PStr "find videos");
              ("role", PStr "user"); ("timestamp", PInt 0)]]
        ++ [PDict [("type", PStr "text"); ("content", PStr "more");
                   ("role", PStr "user"); ("timestamp", PInt 0)]]).
Proof.
  apply (stored_events_compose
           [("id", PStr "s1");
            ("events", PList ([stored_text "find videos"] ++ [stored_text "more"]))]
           [stored_text "find videos"] [stored_text "more"]).
  reflexivity.
Defined.

Lemma stored_message_shape_witness :
  exists ms1 ms2 ms3,
    [PDict [("type", PStr "text"); ("content", PStr "find videos");
            ("role", PStr "user"); ("timestamp", PInt 0)];
     PDict [("type", PStr "video_list"); ("content", PList [video]);
            ("role", PStr "assistant"); ("timestamp", PInt 12)];
     PDict [("type", PStr "text"); ("content", PStr "done");
            ("role", PStr "unknown"); ("timestamp", PInt 12)]] =
    ms1 ++ ms2 ++ ms3 /\
    session_messages (PDict [("events", PList [asked_event])]) = Ok ms1 /\
    session_messages (PDict [("events", PList [unsigned_event])]) = Ok ms2 /\
    session_messages (PDict [("events", PList [])]) = Ok ms3 /\
    forall m,
      In m ms2 ->
      exists ty content role,
        m = PDict [("type", PStr ty); ("content", content); ("role", role);
                   ("timestamp", field_or (PInt 0) unsigned_event "timestamp")] /\
        truthy content = true /\
        (ty = "video_list" \/ ty = "text").
Proof.
  apply (stored_message_shape two_event_session [asked_event] []
           unsigned_event); reflexivity.
Defined.

Lemma chat_turn_messages_witness :
  fst (fst (chat_turn Ref.decode_utf8 Ref.json_loads "http://localhost:8000"
              (accepting complete_response) drawing painting ticking
              (PDict snake_session) (PStr "hello") [])) =
  [] ++ [user_message (PStr "hello") (ticking 0)] /\
  fst (fst (chat_turn Ref.decode_utf8 Ref.json_loads "http://localhost:8000"
              (accepting complete_response) drawing painting ticking
              (PDict [("appName", PStr "agent")]) (PStr "hello") [])) = [] /\
  exists added,
    fst (fst (chat_turn Ref.decode_utf8 Ref.json_loads "http://localhost:8000"
                (accepting complete_response) drawing painting ticking
                (PDict both_session) (PStr "hello") [])) =
    [] ++ user_message (PStr "hello") (ticking 0) :: added /\
    length added = 1.
Proof.
  split; [|split].
  - destruct (proj2 (chat_turn_messages Ref.decode_utf8 Ref.json_loads
                       "http://localhost:8000" (accepting complete_response)
                       drawing painting ticking
                       (PDict snake_session) (PStr "hello") []))
      as (added & Hafter & _ & Hraise & _).
    + reflexivity.
    + now exists (PStr "s1").
    + now exists tt.
    + destruct (Hraise (KeyError "appName") eq_refl) as [Hnone _].
      rewrite Hafter, Hnone. reflexivity.
  - apply (proj1 (chat_turn_messages Ref.decode_utf8 Ref.json_loads
                    "http://localhost:8000" (accepting complete_response)
                    drawing painting ticking
                    (PDict [("appName", PStr "agent")]) (PStr "hello") [])).
    right. left. now exists (KeyError "id").
  - destruct (proj2 (chat_turn_messages Ref.decode_utf8 Ref.json_loads
                       "http://localhost:8000" (accepting complete_response)
                       drawing painting ticking
                       (PDict both_session) (PStr "hello") []))
      as (added & Hafter & _ & _ & Hsent).
    + reflexivity.
    + now exists (PStr "s1").
    + now exists tt.
    + exists added. split; [exact Hafter|].
      destruct (Hsent [text_event (PStr "hi")] []) as [_ Hall].
      * vm_compute. reflexivity.
      * destruct (Hall (fun _ => eq_refl)) as [Hlen _]. exact Hlen.
Defined.

Lemma watch_url_round_trip_witness :
  extract_youtube_id "https://www.youtube.com/watch?v=dQw4w9WgXcQ&t=42s" =
  Item (Some "dQw4w9WgXcQ").
Proof.
  apply (watch_url_round_trip "https://www." "dQw4w9WgXcQ" "&t=42s");
    try reflexivity.
  right. now exists "t=42s".
Defined.

Lemma short_url_round_trip_witness :
  extract_youtube_id "https://youtu.be/dQw4w9WgXcQ?t=42" =
  Item (Some "dQw4w9WgXcQ").
Proof.
  apply (short_url_round_trip "dQw4w9WgXcQ" "?t=42"); try reflexivity.
  right. now exists "t=42".
Defined.

Lemma session_option_round_trip_witness :
  selected_session_id (session_option "s-41f2" "2025-01-31 18:05") = Item "s-41f2" /\
  selected_session_id (session_option "my session" "2025-01-31 18:05") = Item "my".
Proof.
  split.
  - apply (proj1 (session_option_round_trip "s-41f2" "2025-01-31 18:05" eq_refl)).
  - apply (proj2 (session_option_round_trip "my" "2025-01-31 18:05" eq_refl)
             "session").
Defined.

Lemma format_video_response_fields_witness :
  format_video_response (PDict (store "viewCount" (PInt 7) [("videoId", PStr "abc")])) =
  format_video_response (PDict [("videoId", PStr "abc")]).
Proof.
  apply (proj2 (format_video_response_fields [("videoId", PStr "abc")])).
  cbn. intros H. repeat (destruct H as [H | H]; [discriminate H|]). exact H.
Defined.

Lemma make_api_request_outcomes_witness :
  [] = @nil notification \/
  (PDict [] = PNone /\ exists e, [] = [ApiError e]).
Proof.
  apply (proj1 (make_api_request_outcomes "http://localhost:8000" silent
                  "/list-apps" "GET" PNone) (PDict []) []).
  reflexivity.
Defined.

Lemma create_session_empty_reply_witness :
  create_session "http://localhost:8000" silent "agent" "user123" PNone
    (mk_page (PDict both_session) [user_message (PStr "hello") (PInt 0)]) =
  Ok (mk_page (PDict both_session) [user_message (PStr "hello") (PInt 0)],
      PNone, []).
Proof.
  apply (create_session_empty_reply "http://localhost:8000" silent
           "agent" "user123" PNone _ 200%Z EmptyString (Raise ValueError)).
  - reflexivity.
  - lia.
  - now left.
Defined.
